(** * Locator validation: [check_locators_from_file]

    A shallow embedding of [src/tools/locator-validation/check-locators.ts]:
    the alternate-locator search [findAlternateLocators] and the tool body
    [execute] registered by [checkLocators], followed by the properties the
    specification states about them. *)

From Stdlib Require Import List String Ascii Bool ZArith Arith Lia.
From Stdlib Require Import DecimalString.
Import ListNotations.

Local Open Scope string_scope.
Local Open Scope list_scope.

(** ** JavaScript strings and arrays *)

Module Js.

(** A string is falsy exactly when it is empty. *)
Definition truthy (s : string) : bool :=
  match s with
  | EmptyString => false
  | String _ _ => true
  end.

(** [a || b] on strings. *)
Definition or (a b : string) : string :=
  if truthy a then a else b.

(** [t] is an initial segment of [s] (the test [includes] repeats at every
    position). *)
Fixpoint startsWith (s t : string) {struct t} : bool :=
  match t, s with
  | EmptyString, _ => true
  | String _ _, EmptyString => false
  | String c t', String d s' => Ascii.eqb c d && startsWith s' t'
  end.

(** [s.includes(t)]: [t] occurs in [s] at some position. *)
Fixpoint includes (s t : string) : bool :=
  startsWith s t ||
  match s with
  | EmptyString => false
  | String _ s' => includes s' t
  end.

(** [Array.prototype.findIndex]: the index of the first element satisfying
    [p], or [-1]. [i] is the index of the head of [l]. *)
Fixpoint findIndexFrom {A : Type} (p : A -> bool) (l : list A) (i : Z) : Z :=
  match l with
  | [] => (-1)%Z
  | x :: l' => if p x then i else findIndexFrom p l' (i + 1)%Z
  end.

Definition findIndex {A : Type} (p : A -> bool) (l : list A) : Z :=
  findIndexFrom p l 0%Z.

(** [Array.prototype.filter] with the three-argument callback
    [(item, index, self)]. *)
Fixpoint filterFrom {A : Type} (p : A -> Z -> bool) (l : list A) (i : Z)
  : list A :=
  match l with
  | [] => []
  | x :: l' =>
      if p x i then x :: filterFrom p l' (i + 1)%Z
      else filterFrom p l' (i + 1)%Z
  end.

Definition filter {A : Type} (p : A -> Z -> list A -> bool) (self : list A)
  : list A :=
  filterFrom (fun item index => p item index self) self 0%Z.

(** [Array.prototype.slice(from, to)] for non-negative bounds. *)
Definition slice {A : Type} (from to : nat) (l : list A) : list A :=
  firstn (to - from) (skipn from l).

(** [Array.prototype.push] of one item. *)
Definition push {A : Type} (arr : list A) (x : A) : list A := arr ++ [x].

(** A thrown value: an [Error] object with its [name] and [message]. *)
Record Error : Type := mkError { name : string; message : string }.

(** [new Error(msg)]. *)
Definition newError (msg : string) : Error := mkError "Error" msg.

(** [Error.prototype.toString]. *)
Definition toString (e : Error) : string :=
  if negb (truthy (name e)) then message e
  else if negb (truthy (message e)) then name e
  else (name e ++ ": " ++ message e)%string.

(** Lower-casing restricted to the ASCII letters; [toLowerCase] agrees
    with it on ASCII strings. *)
Definition asciiLowerChar (c : ascii) : ascii :=
  let n := nat_of_ascii c in
  if Nat.leb 65 n && Nat.leb n 90 then ascii_of_nat (n + 32) else c.

Fixpoint asciiToLowerCase (s : string) : string :=
  match s with
  | EmptyString => EmptyString
  | String c s' => String (asciiLowerChar c) (asciiToLowerCase s')
  end.

End Js.

(** ** Data model *)

(** [interface UserLocatorEntry]: one item of the locator file. *)
Module UserLocatorEntry.
Record t : Type := mk
  { pageName : string;
    pageElementName : string;
    LocatorStrategy : string;
    Locators : string;
    fieldName : string;
    timestamp : string;
    remarks : string;
    AutoHeal : string }.
End UserLocatorEntry.

(** Modelled from the spec: the type [ElementWithLocators] of the items that
    [generateAllElementLocators] returns is declared in
    [locators/generate-all-locators], which is not part of the sources at
    hand. The record carries the Element Node attributes that
    [findAlternateLocators] reads, each a possibly empty string, and the
    Locator Candidate Map as the sequence [Object.entries(element.locators)]
    enumerates: strategy name and selector, in property order. *)
Module ElementWithLocators.
Record t : Type := mk
  { tagName : string;
    text : string;
    contentDesc : string;
    resourceId : string;
    locators : list (string * string) }.
End ElementWithLocators.

(** [{ strategy, selector, tagName }]: one proposed replacement. *)
Module Alternate.
Record t : Type := mk
  { strategy : string;
    selector : string;
    tagName : string }.

(** The pair duplicates are recognised by. *)
Definition key (a : t) : string * string := (strategy a, selector a).
End Alternate.

(** [interface ValidationResult]; the optional members are [None] when the
    object literal leaves them out. *)
Module ValidationResult.
Record t : Type := mk
  { pageName : string;
    pageElementName : string;
    primaryStrategy : string;
    primaryLocator : string;
    found : bool;
    alternateLocators : option (list Alternate.t);
    error : option string }.
End ValidationResult.

(** ** The alternate-locator search *)

Section AlternateSearch.

(** [String.prototype.toLowerCase] of the host runtime. *)
Variable toLowerCase : string -> string.

Definition mkAlternate (element : ElementWithLocators.t)
  (entry : string * string) : Alternate.t :=
  Alternate.mk (fst entry) (snd entry) (ElementWithLocators.tagName element).

(** [userLocator.fieldName || userLocator.remarks ||
    userLocator.pageElementName]. *)
Definition targetText (userLocator : UserLocatorEntry.t) : string :=
  Js.or (Js.or (UserLocatorEntry.fieldName userLocator)
               (UserLocatorEntry.remarks userLocator))
        (UserLocatorEntry.pageElementName userLocator).

(** [element.text || element.contentDesc || element.resourceId]. *)
Definition elementText (element : ElementWithLocators.t) : string :=
  Js.or (Js.or (ElementWithLocators.text element)
               (ElementWithLocators.contentDesc element))
        (ElementWithLocators.resourceId element).

(** The condition of the first [if] of the loop body. *)
Definition textMatches (userLocator : UserLocatorEntry.t)
  (element : ElementWithLocators.t) : bool :=
  Js.truthy (elementText element) &&
  Js.truthy (targetText userLocator) &&
  Js.includes (toLowerCase (elementText element))
              (toLowerCase (targetText userLocator)).

(** The first statement of the loop body: on a text match, every entry of
    [element.locators] is pushed. *)
Definition pushTextMatches (userLocator : UserLocatorEntry.t)
  (element : ElementWithLocators.t) (alternates : list Alternate.t)
  : list Alternate.t :=
  if textMatches userLocator element then
    fold_left (fun acc entry => Js.push acc (mkAlternate element entry))
              (ElementWithLocators.locators element) alternates
  else alternates.

(** The inner [forEach] of the second statement: the entries whose strategy
    differs from the one the user tried are pushed. *)
Definition pushOtherStrategies (userLocator : UserLocatorEntry.t)
  (element : ElementWithLocators.t) (alternates : list Alternate.t)
  : list Alternate.t :=
  fold_left
    (fun acc entry =>
       if negb (String.eqb (fst entry)
                           (UserLocatorEntry.LocatorStrategy userLocator))
       then Js.push acc (mkAlternate element entry)
       else acc)
    (ElementWithLocators.locators element) alternates.

(** The second statement of the loop body: once for every value of
    [element.locators] that equals the user's selector. *)
Definition pushExactMatches (userLocator : UserLocatorEntry.t)
  (element : ElementWithLocators.t) (alternates : list Alternate.t)
  : list Alternate.t :=
  fold_left
    (fun acc selector =>
       if String.eqb selector (UserLocatorEntry.Locators userLocator)
       then pushOtherStrategies userLocator element acc
       else acc)
    (map snd (ElementWithLocators.locators element)) alternates.

(** The [for ... of] loop over the snapshot, from an empty [alternates]. *)
Definition collectAlternates (userLocator : UserLocatorEntry.t)
  (allCurrentPageElements : list ElementWithLocators.t) : list Alternate.t :=
  fold_left
    (fun alternates element =>
       pushExactMatches userLocator element
         (pushTextMatches userLocator element alternates))
    allCurrentPageElements [].

(** The callback of [findIndex]: same strategy and same selector. *)
Definition sameKey (item t : Alternate.t) : bool :=
  String.eqb (Alternate.strategy t) (Alternate.strategy item) &&
  String.eqb (Alternate.selector t) (Alternate.selector item).

(** [alternates.filter((item, index, self) => index === self.findIndex(...))]. *)
Definition uniqueAlternates (alternates : list Alternate.t)
  : list Alternate.t :=
  Js.filter
    (fun item index self => Z.eqb index (Js.findIndex (sameKey item) self))
    alternates.

Definition findAlternateLocators (userLocator : UserLocatorEntry.t)
  (allCurrentPageElements : list ElementWithLocators.t) : list Alternate.t :=
  Js.slice 0 5 (uniqueAlternates (collectAlternates userLocator
                                    allCurrentPageElements)).

End AlternateSearch.

(** ** Effects: exceptions and the log of session interactions *)

(** How a JavaScript computation completes. *)
Inductive Completion (A : Type) : Type :=
| Return (value : A)
| Throw (thrown : Js.Error).

Arguments Return {A} value.
Arguments Throw {A} thrown.

(** One interaction with the driver session, in the order they are issued;
    a [FindElement] records whether the element was resolved. *)
Inductive Event : Type :=
| GetPageSource
| AutomationName
| FindElement (strategy selector : string) (resolved : bool).

(** A computation reads the interactions made so far and extends them. *)
Definition M (A : Type) : Type := list Event -> Completion A * list Event.

Definition ret {A : Type} (a : A) : M A := fun log => (Return a, log).

Definition throw {A : Type} (e : Js.Error) : M A := fun log => (Throw e, log).

Definition bind {A B : Type} (m : M A) (k : A -> M B) : M B :=
  fun log =>
    match m log with
    | (Return a, log') => k a log'
    | (Throw e, log') => (Throw e, log')
    end.

(** [try { m } catch (e) { handler e }]. *)
Definition tryCatch {A : Type} (m : M A) (handler : Js.Error -> M A) : M A :=
  fun log =>
    match m log with
    | (Return a, log') => (Return a, log')
    | (Throw e, log') => handler e log'
    end.

(** A call that touches no session. *)
Definition pure {A : Type} (c : Completion A) : M A := fun log => (c, log).

Declare Scope js_scope.
Delimit Scope js_scope with js.
Notation "x <- m ;; k" := (bind m (fun x => k))
  (at level 61, m at next level, right associativity) : js_scope.

(** The element handle a successful [findElement] returns. *)
Definition ElementHandle : Type := string.

(** The session collaborator. Each answer may depend on the interactions
    made before it, the live screen being free to change. *)
Record Driver : Type := mkDriver
  { getPageSource : list Event -> Completion string;
    automationName : list Event -> option string;
    findElement : list Event -> string -> string -> Completion ElementHandle }.

(** [await driver.getPageSource()]. *)
Definition callGetPageSource (driver : Driver) : M string :=
  fun log => (getPageSource driver log, log ++ [GetPageSource]).

(** [await driver.caps.automationName]; [None] is [undefined]. *)
Definition readAutomationName (driver : Driver) : M (option string) :=
  fun log => (Return (automationName driver log), log ++ [AutomationName]).

(** [await driver.findElement(strategy, selector)]. *)
Definition callFindElement (driver : Driver) (strategy selector : string)
  : M ElementHandle :=
  fun log =>
    match findElement driver log strategy selector with
    | Return handle =>
        (Return handle, log ++ [FindElement strategy selector true])
    | Throw e => (Throw e, log ++ [FindElement strategy selector false])
    end.

(** The session store and the file system the tool runs against. *)
Record Host : Type := mkHost
  { getDriver : option Driver;
    existsSync : string -> bool;
    readFileSync : string -> Completion string }.

(** What [JSON.parse] returns, as far as the tool inspects it: an array,
    whose items are read at their declared type [UserLocatorEntry], or a
    value for which [Array.isArray] is false. *)
Inductive JsonValue : Type :=
| JsonArray (items : list UserLocatorEntry.t)
| JsonOther.

Definition isArray (v : JsonValue) : bool :=
  match v with
  | JsonArray _ => true
  | JsonOther => false
  end.

(** ** The report *)

Module FoundLocator.
Record t : Type := mk
  { pageName : string;
    pageElementName : string;
    strategy : string;
    selector : string }.
End FoundLocator.

Module MissingLocator.
Record t : Type := mk
  { pageName : string;
    pageElementName : string;
    primaryStrategy : string;
    primaryLocator : string;
    alternateLocators : option (list Alternate.t);
    error : option string }.
End MissingLocator.

(** The object handed to [JSON.stringify] as the text of the tool's answer. *)
Module Report.
Record t : Type := mk
  { totalChecked : nat;
    foundCount : nat;
    missingCount : nat;
    foundLocators : list FoundLocator.t;
    missingLocators : list MissingLocator.t;
    message : string }.
End Report.

(** A number inside a template literal. *)
Definition showNat (n : nat) : string :=
  NilEmpty.string_of_uint (Nat.to_uint n).

Definition toFoundLocator (loc : ValidationResult.t) : FoundLocator.t :=
  FoundLocator.mk (ValidationResult.pageName loc)
                  (ValidationResult.pageElementName loc)
                  (ValidationResult.primaryStrategy loc)
                  (ValidationResult.primaryLocator loc).

Definition toMissingLocator (loc : ValidationResult.t) : MissingLocator.t :=
  MissingLocator.mk (ValidationResult.pageName loc)
                    (ValidationResult.pageElementName loc)
                    (ValidationResult.primaryStrategy loc)
                    (ValidationResult.primaryLocator loc)
                    (ValidationResult.alternateLocators loc)
                    (ValidationResult.error loc).

(** Lines 105-132: the found and the missing results, counted and listed. *)
Definition buildReport (results : list ValidationResult.t) : Report.t :=
  let foundLocators := List.filter ValidationResult.found results in
  let missingLocators :=
    List.filter (fun result => negb (ValidationResult.found result)) results in
  Report.mk
    (List.length results)
    (List.length foundLocators)
    (List.length missingLocators)
    (map toFoundLocator foundLocators)
    (map toMissingLocator missingLocators)
    ("Checked " ++ showNat (List.length results) ++ " locators: " ++
     showNat (List.length foundLocators) ++ " found, " ++
     showNat (List.length missingLocators) ++ " missing")%string.

(** ** The tool body *)

(** [args] of the tool, as [checkLocatorsSchema] admits them. *)
Record Args : Type := mkArgs { locatorFilePath : string }.

Section Tool.

Local Open Scope js_scope.

(** [String.prototype.toLowerCase], [path.resolve] and [JSON.parse] of the
    host runtime. *)
Variable toLowerCase : string -> string.
Variable path_resolve : string -> string.
Variable JSON_parse : string -> Completion JsonValue.

(** [generateAllElementLocators] of [locators/generate-all-locators]: page
    source, the flag the tool passes as [true], and the driver name. *)
Variable generateAllElementLocators :
  string -> bool -> string -> Completion (list ElementWithLocators.t).

(** [(await driver.caps.automationName).toLowerCase()]: calling a method
    on [undefined] throws a [TypeError]. *)
Definition readDriverName (driver : Driver) : M string :=
  automationName <- readAutomationName driver ;;
  match automationName with
  | Some name => ret (toLowerCase name)
  | None =>
      throw (Js.mkError "TypeError"
               "Cannot read properties of undefined (reading 'toLowerCase')")
  end.

(** Lines 75-102, the body of the loop over the entries. *)
Definition checkEntry (driver : Driver)
  (allCurrentPageElements : list ElementWithLocators.t)
  (userLocator : UserLocatorEntry.t) (results : list ValidationResult.t)
  : M (list ValidationResult.t) :=
  tryCatch
    (element <-
       callFindElement driver
         (UserLocatorEntry.LocatorStrategy userLocator)
         (UserLocatorEntry.Locators userLocator) ;;
     ret (Js.push results
            (ValidationResult.mk
               (UserLocatorEntry.pageName userLocator)
               (UserLocatorEntry.pageElementName userLocator)
               (UserLocatorEntry.LocatorStrategy userLocator)
               (UserLocatorEntry.Locators userLocator)
               true None None)))
    (fun err =>
       let alternateLocators :=
         findAlternateLocators toLowerCase userLocator
           allCurrentPageElements in
       ret (Js.push results
              (ValidationResult.mk
                 (UserLocatorEntry.pageName userLocator)
                 (UserLocatorEntry.pageElementName userLocator)
                 (UserLocatorEntry.LocatorStrategy userLocator)
                 (UserLocatorEntry.Locators userLocator)
                 false (Some alternateLocators) (Some (Js.toString err))))).

(** Lines 74-103, [for (const userLocator of userLocators)]. *)
Fixpoint checkEach (driver : Driver)
  (allCurrentPageElements : list ElementWithLocators.t)
  (userLocators : list UserLocatorEntry.t) (results : list ValidationResult.t)
  : M (list ValidationResult.t) :=
  match userLocators with
  | [] => ret results
  | userLocator :: rest =>
      results' <-
        checkEntry driver allCurrentPageElements userLocator results ;;
      checkEach driver allCurrentPageElements rest results'
  end.

(** Lines 49-60: the locator file read and checked to hold an array. *)
Definition readUserLocators (host : Host) (args : Args)
  : M (list UserLocatorEntry.t) :=
  let locatorFilePath := path_resolve (locatorFilePath args) in
  if negb (existsSync host locatorFilePath) then
    throw (Js.newError ("Locator file not found: " ++ locatorFilePath)%string)
  else
    fileContent <- pure (readFileSync host locatorFilePath) ;;
    userLocators <- pure (JSON_parse fileContent) ;;
    match userLocators with
    | JsonArray items => ret items
    | JsonOther =>
        throw (Js.newError
                 "Locator file must contain an array of locator objects")
    end.

(** Lines 62-69: the page source read and turned into the element list. *)
Definition captureSnapshot (driver : Driver)
  : M (list ElementWithLocators.t) :=
  pageSource <- callGetPageSource driver ;;
  driverName <- readDriverName driver ;;
  pure (generateAllElementLocators pageSource true driverName).

(** Lines 42-139, [execute]. *)
Definition execute (host : Host) (args : Args) : M Report.t :=
  match getDriver host with
  | None =>
      throw (Js.newError
               "No active driver session. Please create a session first.")
  | Some driver =>
      tryCatch
        (userLocators <- readUserLocators host args ;;
         allCurrentPageElements <- captureSnapshot driver ;;
         results <- checkEach driver allCurrentPageElements userLocators [] ;;
         ret (buildReport results))
        (fun error =>
           throw (Js.newError
                    ("Failed to check locators: " ++ Js.message error)%string))
  end.

(** One call of the tool in a fresh log. *)
Definition run (host : Host) (args : Args) : Completion Report.t * list Event :=
  execute host args [].

End Tool.

(** ** Notions the specification uses *)

(** [sub] is [l] with some items left out, the others in their order. *)
Inductive Subsequence {A : Type} : list A -> list A -> Prop :=
| Subsequence_nil : Subsequence [] []
| Subsequence_skip : forall x sub l,
    Subsequence sub l -> Subsequence sub (x :: l)
| Subsequence_keep : forall x sub l,
    Subsequence sub l -> Subsequence (x :: sub) (x :: l).

(** [t] occurs in [s]: some characters, then [t], then the rest. *)
Definition Contains (s t : string) : Prop :=
  exists before after, s = (before ++ t ++ after)%string.

(** The first non-empty of three strings, the empty string if there is
    none. *)
Definition firstNonEmpty (a b c : string) : string :=
  if string_dec a "" then (if string_dec b "" then c else b) else a.

Section SpecNotions.

Variable toLowerCase : string -> string.

(** Containment up to letter case. *)
Definition ContainsIgnoreCase (s t : string) : Prop :=
  Contains (toLowerCase s) (toLowerCase t).

(** The target label: [fieldName], else [remarks], else [pageElementName]. *)
Definition targetLabel (userLocator : UserLocatorEntry.t) : string :=
  firstNonEmpty (UserLocatorEntry.fieldName userLocator)
                (UserLocatorEntry.remarks userLocator)
                (UserLocatorEntry.pageElementName userLocator).

(** The label of an Element Node: [text], else [contentDesc], else
    [resourceId]. *)
Definition elementLabel (element : ElementWithLocators.t) : string :=
  firstNonEmpty (ElementWithLocators.text element)
                (ElementWithLocators.contentDesc element)
                (ElementWithLocators.resourceId element).

(** Text similarity in the specification's words: one of the three
    attributes contains the target label, letter case aside. *)
Definition AnyAttributeContainsLabel (userLocator : UserLocatorEntry.t)
  (element : ElementWithLocators.t) : Prop :=
  ContainsIgnoreCase (ElementWithLocators.text element)
                     (targetLabel userLocator) \/
  ContainsIgnoreCase (ElementWithLocators.contentDesc element)
                     (targetLabel userLocator) \/
  ContainsIgnoreCase (ElementWithLocators.resourceId element)
                     (targetLabel userLocator).

(** Exact selector reuse: one of the element's own selectors is the user's
    selector. *)
Definition exactMatches (userLocator : UserLocatorEntry.t)
  (element : ElementWithLocators.t) : bool :=
  existsb (fun entry =>
             String.eqb (snd entry) (UserLocatorEntry.Locators userLocator))
          (ElementWithLocators.locators element).

(** A candidate of the element under another strategy than the one tried. *)
Definition otherStrategy (userLocator : UserLocatorEntry.t)
  (entry : string * string) : bool :=
  negb (String.eqb (fst entry)
                   (UserLocatorEntry.LocatorStrategy userLocator)).

(** What visiting one element adds to [alternates]: by the text test, by
    the selector test, and both. *)
Definition textEmitted (userLocator : UserLocatorEntry.t)
  (element : ElementWithLocators.t) : list Alternate.t :=
  pushTextMatches toLowerCase userLocator element [].

Definition exactEmitted (userLocator : UserLocatorEntry.t)
  (element : ElementWithLocators.t) : list Alternate.t :=
  pushExactMatches userLocator element [].

Definition emitted (userLocator : UserLocatorEntry.t)
  (element : ElementWithLocators.t) : list Alternate.t :=
  pushExactMatches userLocator element
    (pushTextMatches toLowerCase userLocator element []).

(** The specification's reading of the emitted alternates: for a matching
    element, its candidates under every strategy but the tried one, and
    nothing else. *)
Definition EmitsAllButTried (userLocator : UserLocatorEntry.t)
  (element : ElementWithLocators.t) : Prop :=
  textMatches toLowerCase userLocator element = true \/
  exactMatches userLocator element = true ->
  forall a,
    In a (emitted userLocator element) <->
    exists entry,
      In entry (ElementWithLocators.locators element) /\
      otherStrategy userLocator entry = true /\
      a = mkAlternate element entry.

(** The specification's reading of exact selector reuse: the other
    candidates of a node that carries the user's selector are among the
    returned alternates. *)
Definition OtherStrategiesReturned (userLocator : UserLocatorEntry.t)
  (allCurrentPageElements : list ElementWithLocators.t) : Prop :=
  forall element entry,
    In element allCurrentPageElements ->
    exactMatches userLocator element = true ->
    In entry (ElementWithLocators.locators element) ->
    otherStrategy userLocator entry = true ->
    exists a,
      In a (findAlternateLocators toLowerCase userLocator
              allCurrentPageElements) /\
      Alternate.key a = entry.

End SpecNotions.

(** The page source is read only after a failed resolution. *)
Definition CapturedOnlyAfterFailure (log : list Event) : Prop :=
  forall i,
    nth_error log i = Some GetPageSource ->
    exists j strategy selector,
      j < i /\ nth_error log j = Some (FindElement strategy selector false).

Definition isFindElement (ev : Event) : bool :=
  match ev with
  | FindElement _ _ _ => true
  | _ => false
  end.

Definition isGetPageSource (ev : Event) : bool :=
  match ev with
  | GetPageSource => true
  | _ => false
  end.

(** The number of snapshots a log shows. *)
Definition snapshotCount (log : list Event) : nat :=
  List.length (List.filter isGetPageSource log).

(** Duplicate removal in the specification's words: going through the list
    in order, an item is kept when no item seen before it has its strategy
    and selector. *)
Fixpoint firstSeen (seen l : list Alternate.t) : list Alternate.t :=
  match l with
  | [] => []
  | x :: l' =>
      if existsb (sameKey x) seen then firstSeen (seen ++ [x]) l'
      else x :: firstSeen (seen ++ [x]) l'
  end.

(** The three ways the locator file is unfit. *)
Section LocatorFile.

Variable path_resolve : string -> string.
Variable JSON_parse : string -> Completion JsonValue.

Definition LocatorFileMissing (host : Host) (args : Args) : Prop :=
  existsSync host (path_resolve (locatorFilePath args)) = false.

Definition LocatorFileUnparsable (host : Host) (args : Args) : Prop :=
  existsSync host (path_resolve (locatorFilePath args)) = true /\
  exists fileContent e,
    readFileSync host (path_resolve (locatorFilePath args)) =
      Return fileContent /\
    JSON_parse fileContent = Throw e.

Definition LocatorFileNotArray (host : Host) (args : Args) : Prop :=
  existsSync host (path_resolve (locatorFilePath args)) = true /\
  exists fileContent,
    readFileSync host (path_resolve (locatorFilePath args)) =
      Return fileContent /\
    JSON_parse fileContent = Return JsonOther.

End LocatorFile.

(** The per-entry Validation Result of the specification: [found] without
    alternates and error, or not found with the alternates searched in the
    snapshot and the rendering of some thrown error. *)
Definition ResultFor (toLowerCase : string -> string)
  (allCurrentPageElements : list ElementWithLocators.t)
  (userLocator : UserLocatorEntry.t) (result : ValidationResult.t) : Prop :=
  ValidationResult.pageName result = UserLocatorEntry.pageName userLocator /\
  ValidationResult.pageElementName result =
    UserLocatorEntry.pageElementName userLocator /\
  ValidationResult.primaryStrategy result =
    UserLocatorEntry.LocatorStrategy userLocator /\
  ValidationResult.primaryLocator result =
    UserLocatorEntry.Locators userLocator /\
  ((ValidationResult.found result = true /\
    ValidationResult.alternateLocators result = None /\
    ValidationResult.error result = None) \/
   (ValidationResult.found result = false /\
    ValidationResult.alternateLocators result =
      Some (findAlternateLocators toLowerCase userLocator
              allCurrentPageElements) /\
    exists err, ValidationResult.error result = Some (Js.toString err))).

(** The resolutions a run makes for its entries, as the log shows them: one
    per entry, with the entry's strategy and selector and whether its
    result says [found]. *)
Definition resolutionEvents (userLocators : list UserLocatorEntry.t)
  (results : list ValidationResult.t) : list Event :=
  map (fun pair =>
         FindElement (UserLocatorEntry.LocatorStrategy (fst pair))
                     (UserLocatorEntry.Locators (fst pair))
                     (ValidationResult.found (snd pair)))
      (combine userLocators results).

Definition isResolved (ev : Event) : bool :=
  match ev with
  | FindElement _ _ resolved => resolved
  | _ => false
  end.

Definition isFailedResolution (ev : Event) : bool :=
  match ev with
  | FindElement _ _ resolved => negb resolved
  | _ => false
  end.

(** [a] is an initial segment of [b]. *)
Definition Prefix {A : Type} (a b : list A) : Prop :=
  exists rest, b = a ++ rest.

(** ** A sample screen and locator file *)

Module Sample.

(** An entry whose recorded id is gone from the screen. *)
Definition submitEntry : UserLocatorEntry.t :=
  UserLocatorEntry.mk "Checkout" "submitButton" "id" "com.app:id/missingBtn"
    "Submit" "2024-01-01T00:00:00Z" "" "true".

(** An entry that still resolves. *)
Definition cartEntry : UserLocatorEntry.t :=
  UserLocatorEntry.mk "Checkout" "cartIcon" "id" "com.app:id/cart"
    "Cart" "2024-01-01T00:00:00Z" "" "true".

(** An entry recorded under a strategy the driver no longer accepts, its
    selector still on the screen. *)
Definition loginEntry : UserLocatorEntry.t :=
  UserLocatorEntry.mk "Login" "loginButton" "resource-id" "com.app:id/login"
    "Login" "2024-01-01T00:00:00Z" "" "true".

(** An entry without any label. *)
Definition unlabelledEntry : UserLocatorEntry.t :=
  UserLocatorEntry.mk "Login" "" "resource-id" "com.app:id/login"
    "" "2024-01-01T00:00:00Z" "" "true".

Definition submitButton : ElementWithLocators.t :=
  ElementWithLocators.mk "android.widget.Button" "Submit" ""
    "com.app:id/submitBtn"
    [("id", "com.app:id/submitBtn");
     ("xpath", "//android.widget.Button[@text='Submit']")].

(** A button whose accessibility text, not its label, names the action. *)
Definition cancelButton : ElementWithLocators.t :=
  ElementWithLocators.mk "android.widget.Button" "Cancel" "Submit later"
    "com.app:id/cancelBtn"
    [("id", "com.app:id/cancelBtn");
     ("accessibility id", "Submit later")].

Definition loginTitle : ElementWithLocators.t :=
  ElementWithLocators.mk "android.widget.TextView" "Login to continue" ""
    "com.app:id/title"
    [("id", "com.app:id/title");
     ("xpath", "//android.widget.TextView[@text='Login to continue']");
     ("class name", "android.widget.TextView")].

Definition loginButton : ElementWithLocators.t :=
  ElementWithLocators.mk "android.widget.Button" "Sign in" "Sign in"
    "com.app:id/login"
    [("id", "com.app:id/login");
     ("accessibility id", "Sign in");
     ("xpath", "//android.widget.Button[@text='Sign in']");
     ("class name", "android.widget.Button")].

Definition noSuchElement : Js.Error :=
  Js.mkError "NoSuchElementError"
    "An element could not be located on the page using the given search parameters.".

(** A session on which only the cart icon resolves. *)
Definition driver : Driver :=
  mkDriver
    (fun _ => Return "<hierarchy/>")
    (fun _ => Some "UiAutomator2")
    (fun _ strategy selector =>
       if String.eqb strategy "id" && String.eqb selector "com.app:id/cart"
       then Return "element-1"
       else Throw noSuchElement).

Definition args : Args := mkArgs "locators.json".

Definition path_resolve (p : string) : string := ("/work/" ++ p)%string.

(** A file system holding the one locator file. *)
Definition host : Host :=
  mkHost (Some driver)
         (fun p => String.eqb p "/work/locators.json")
         (fun _ => Return "[ ... ]").

(** The same session without the locator file. *)
Definition hostWithoutFile : Host :=
  mkHost (Some driver) (fun _ => false)
         (fun _ => Throw (Js.newError "ENOENT: no such file or directory")).

Definition JSON_parse (fileContent : string) : Completion JsonValue :=
  Return (JsonArray [cartEntry; submitEntry]).

(** A locator file whose only entry resolves. *)
Definition JSON_parse_cart (fileContent : string) : Completion JsonValue :=
  Return (JsonArray [cartEntry]).

Definition generateAllElementLocators (pageSource : string)
  (flag : bool) (driverName : string)
  : Completion (list ElementWithLocators.t) :=
  Return [submitButton; cancelButton].

End Sample.

(** ** The helpers of the order tool

    [getElementId], [pickBestLocator], [snapshotElements],
    [findElementByPredicate], [textIncludes] and [equalsIgnoreCase] of the
    tool [appium_place_stock_order]. *)

Module PlaceStockOrder.

(** The handle [findElement] resolves to, as [getElementId] reads it: its
    member [ELEMENT] and its member [element-6066-11e4-a52e-4f735466cecf],
    [None] where the member is [undefined] or [null]. *)
Record ElementReference : Type := mkElementReference
  { ELEMENT : option string;
    w3cElement : option string }.

(** The session as this tool uses it; a handle that is [undefined] or
    [null] is [None]. *)
Record Driver : Type := mkDriver
  { getPageSource : list Event -> Completion string;
    automationName : list Event -> option string;
    findElement :
      list Event -> string -> string -> Completion (option ElementReference) }.

(** [{ strategy, selector }]. *)
Record Locator : Type := mkLocator
  { strategy : string;
    selector : string }.

(** [{ elementId, strategy, selector }]. *)
Record Located : Type := mkLocated
  { elementId : string;
    locatedStrategy : string;
    locatedSelector : string }.

(** Lines 24-35: [element.ELEMENT ?? element[W3C key] ?? throw]. *)
Definition getElementId (element : option ElementReference)
  : Completion string :=
  match element with
  | None => Throw (Js.newError "Element handle is undefined")
  | Some handle =>
      match ELEMENT handle with
      | Some id => Return id
      | None =>
          match w3cElement handle with
          | Some id => Return id
          | None =>
              Throw (Js.newError
                       "Unable to determine element id from element handle")
          end
      end
  end.

(** [locators[key]]: the value of the property, [None] when there is none. *)
Definition property (locators : list (string * string)) (key : string)
  : option string :=
  match List.find (fun entry => String.eqb (fst entry) key) locators with
  | Some entry => Some (snd entry)
  | None => None
  end.

Definition preferredOrder : list string := ["id"; "accessibility id"; "xpath"].

(** The [for] loop of [pickBestLocator] over the keys still to try. *)
Fixpoint pickPreferred (locators : list (string * string))
  (keys : list string) : option Locator :=
  match keys with
  | [] => None
  | key :: rest =>
      match property locators key with
      | Some value =>
          if Js.truthy value then Some (mkLocator key value)
          else pickPreferred locators rest
      | None => pickPreferred locators rest
      end
  end.

(** Lines 38-54. *)
Definition pickBestLocator (element : ElementWithLocators.t)
  : Completion Locator :=
  match pickPreferred (ElementWithLocators.locators element)
          preferredOrder with
  | Some locator => Return locator
  | None =>
      match ElementWithLocators.locators element with
      | [] =>
          Throw (Js.newError "No usable locators generated for target element")
      | entry :: _ => Return (mkLocator (fst entry) (snd entry))
      end
  end.

(** The test of the loop: the element has a non-empty selector under
    [key]. *)
Definition usable (locators : list (string * string)) (key : string) : bool :=
  match property locators key with
  | Some value => Js.truthy value
  | None => false
  end.

(** [await driver.findElement(strategy, selector)] on this session. *)
Definition callFindElement (driver : Driver) (strategy selector : string)
  : M (option ElementReference) :=
  fun log =>
    match findElement driver log strategy selector with
    | Return handle =>
        (Return handle, log ++ [FindElement strategy selector true])
    | Throw e => (Throw e, log ++ [FindElement strategy selector false])
    end.

Section Helpers.

Local Open Scope js_scope.

Variable toLowerCase : string -> string.
Variable generateAllElementLocators :
  string -> bool -> string -> Completion (list ElementWithLocators.t).

(** Lines 56-60. *)
Definition snapshotElements (driver : Driver)
  : M (list ElementWithLocators.t) :=
  pageSource <-
    (fun log => (getPageSource driver log, log ++ [GetPageSource])) ;;
  name <-
    (fun log =>
       (Return (automationName driver log), log ++ [AutomationName])) ;;
  match name with
  | Some name =>
      pure (generateAllElementLocators pageSource true (toLowerCase name))
  | None =>
      throw (Js.mkError "TypeError"
               "Cannot read properties of undefined (reading 'toLowerCase')")
  end.

(** Lines 62-76. *)
Definition findElementByPredicate (driver : Driver)
  (predicate : ElementWithLocators.t -> bool) (description : string)
  : M Located :=
  elements <- snapshotElements driver ;;
  match List.find predicate elements with
  | None =>
      throw (Js.newError
               ("Unable to locate " ++ description ++
                " using generated locators")%string)
  | Some found =>
      locator <- pure (pickBestLocator found) ;;
      handle <- callFindElement driver (strategy locator) (selector locator) ;;
      elementId <- pure (getElementId handle) ;;
      ret (mkLocated elementId (strategy locator) (selector locator))
  end.

(** Lines 78-80. *)
Definition textIncludes (haystack needle : string) : bool :=
  Js.includes (toLowerCase haystack) (toLowerCase needle).

(** Lines 82-84. *)
Definition equalsIgnoreCase (a b : string) : bool :=
  String.eqb (toLowerCase a) (toLowerCase b).

End Helpers.

End PlaceStockOrder.

(** ** The redaction of logged arguments

    [redactArgs] of [registerTools] in [src/tools/index.ts], on the values
    JSON denotes: [JSON.parse(JSON.stringify(obj, replacer))]. *)

Module RegisterTools.

#[local] Set Warnings "-register-all".

Section Redaction.

(** The numbers, finite and other than negative zero, which serialising
    and parsing give back as they are. *)
Variable Number : Type.

(** [String.prototype.toLowerCase] of the host runtime. *)
Variable toLowerCase : string -> string.

(** A value as JSON denotes it; the members of an object in property
    order. *)
Inductive Json : Type :=
| JNull
| JBool (b : bool)
| JNumber (n : Number)
| JString (s : string)
| JArray (items : list Json)
| JObject (members : list (string * Json)).

Definition SENSITIVE_KEYS : list string :=
  ["password"; "token"; "accessToken"; "authorization"; "apiKey"; "apikey";
   "secret"; "clientSecret"].

(** [key && SENSITIVE_KEYS.some(k => key.toLowerCase().includes(k))]. *)
Definition redacts (key : string) : bool :=
  Js.truthy key &&
  existsb (fun k => Js.includes (toLowerCase key) k) SENSITIVE_KEYS.

(** [value && typeof value === 'string' && value.length > 2000]. *)
Definition tooLong (s : string) : bool :=
  Js.truthy s && Nat.ltb 2000 (String.length s).

(** The replacer handed to [JSON.stringify]. A JSON value is no [Buffer],
    so the third test of the source never fires here. *)
Definition replacer (key : string) (value : Json) : Json :=
  if redacts key then JString "[REDACTED]"
  else
    match value with
    | JString s =>
        if tooLong s
        then JString ("[string:" ++ showNat (String.length s) ++ "]")%string
        else value
    | _ => value
    end.

(** Serialising the value held under [key] and parsing it back: the
    replacer is called on the value, and what it returns is gone through
    in turn, the items of an array under their index as key, the members
    of an object under their name. The replacer returns the value itself
    or a string, which makes the recursion structural. *)
Fixpoint redactValue (key : string) (value : Json) {struct value} : Json :=
  if redacts key then JString "[REDACTED]"
  else
    match value with
    | JString s =>
        if tooLong s
        then JString ("[string:" ++ showNat (String.length s) ++ "]")%string
        else value
    | JArray items =>
        JArray
          ((fix items_from (index : nat) (l : list Json) : list Json :=
              match l with
              | [] => []
              | item :: rest =>
                  redactValue (showNat index) item ::
                  items_from (S index) rest
              end) 0 items)
    | JObject members =>
        JObject
          ((fix members_of (l : list (string * Json))
              : list (string * Json) :=
              match l with
              | [] => []
              | member :: rest =>
                  (fst member, redactValue (fst member) (snd member)) ::
                  members_of rest
              end) members)
    | _ => value
    end.

(** The items of an array from [index] on, and the members of an object,
    each serialised under its key. *)
Fixpoint redactItems (index : nat) (items : list Json) : list Json :=
  match items with
  | [] => []
  | item :: rest =>
      redactValue (showNat index) item :: redactItems (S index) rest
  end.

Definition redactMembers (members : list (string * Json))
  : list (string * Json) :=
  map (fun member => (fst member, redactValue (fst member) (snd member)))
      members.

(** What serialising does with the value the replacer returned. *)
Definition descend (value : Json) : Json :=
  match value with
  | JArray items => JArray (redactItems 0 items)
  | JObject members => JObject (redactMembers members)
  | _ => value
  end.

(** [redactArgs]: the root is serialised under the empty key. *)
Definition redactArgs (obj : Json) : Json := redactValue "" obj.

(** A string the redaction leaves in its output: of at most 2000
    characters, as the marker [[REDACTED]] is, or the marker of a longer
    string. *)
Definition LoggableString (s : string) : Prop :=
  String.length s <= 2000 \/
  exists n, 2000 < n /\ s = ("[string:" ++ showNat n ++ "]")%string.

(** A value fit for the log: under a key that reads as sensitive there is
    only the marker [[REDACTED]], at any depth, and every string in it is
    loggable. *)
Inductive Redacted : Json -> Prop :=
| Redacted_null : Redacted JNull
| Redacted_bool : forall b, Redacted (JBool b)
| Redacted_number : forall n, Redacted (JNumber n)
| Redacted_string : forall s, LoggableString s -> Redacted (JString s)
| Redacted_array : forall items,
    Forall Redacted items -> Redacted (JArray items)
| Redacted_object : forall members,
    Forall (fun member =>
              (redacts (fst member) = true ->
               snd member = JString "[REDACTED]") /\
              Redacted (snd member))
           members ->
    Redacted (JObject members).

(** A value the replacer has nothing to do with when it is a member of the
    arguments: a number, a boolean, [null] or a string of at most 2000
    characters. *)
Definition isPlainScalar (value : Json) : bool :=
  match value with
  | JNull | JBool _ | JNumber _ => true
  | JString s => negb (tooLong s)
  | JArray _ | JObject _ => false
  end.

End Redaction.

Arguments JNull {Number}.
Arguments JBool {Number} b.
Arguments JString {Number} s.
Arguments JArray {Number} items.
Arguments JObject {Number} members.

End RegisterTools.

(** ** Further sample sessions *)

Module Scenario.

(** A session whose page source cannot be read. *)
Definition staleDriver : Driver :=
  mkDriver
    (fun _ => Throw (Js.mkError "WebDriverError" "socket hang up"))
    (fun _ => Some "UiAutomator2")
    (fun _ _ _ => Throw Sample.noSuchElement).

Definition staleHost : Host :=
  mkHost (Some staleDriver)
         (fun p => String.eqb p "/work/locators.json")
         (fun _ => Return "[ ... ]").

(** No session at all, and no locator file either. *)
Definition idleHost : Host :=
  mkHost None (fun _ => false)
         (fun _ => Throw (Js.newError "ENOENT: no such file or directory")).

(** A locator file holding the empty array. *)
Definition JSON_parse_empty (fileContent : string) : Completion JsonValue :=
  Return (JsonArray []).

(** A locator file holding a single object. *)
Definition JSON_parse_object (fileContent : string) : Completion JsonValue :=
  Return JsonOther.

(** The results of checking the sample locator file on the sample screen. *)
Definition checkedResults : list ValidationResult.t :=
  [ValidationResult.mk "Checkout" "cartIcon" "id" "com.app:id/cart"
     true None None;
   ValidationResult.mk "Checkout" "submitButton" "id" "com.app:id/missingBtn"
     false
     (Some (findAlternateLocators Js.asciiToLowerCase Sample.submitEntry
              [Sample.submitButton; Sample.cancelButton]))
     (Some (Js.toString Sample.noSuchElement))].

Definition checkedLog : list Event :=
  [GetPageSource; AutomationName;
   FindElement "id" "com.app:id/cart" true;
   FindElement "id" "com.app:id/missingBtn" false].

(** A session for the order tool that resolves every locator to a handle
    with a W3C element id only. *)
Definition orderDriver : PlaceStockOrder.Driver :=
  PlaceStockOrder.mkDriver
    (fun _ => Return "<hierarchy/>")
    (fun _ => Some "UiAutomator2")
    (fun _ _ _ =>
       Return (Some (PlaceStockOrder.mkElementReference None
                       (Some "00000000-0000-0001")))).

(** A session for the order tool on which nothing resolves. *)
Definition blindOrderDriver : PlaceStockOrder.Driver :=
  PlaceStockOrder.mkDriver
    (fun _ => Return "<hierarchy/>")
    (fun _ => Some "UiAutomator2")
    (fun _ _ _ => Throw Sample.noSuchElement).

Definition isCancel (el : ElementWithLocators.t) : bool :=
  String.eqb (ElementWithLocators.text el) "Cancel".

Definition isConfirm (el : ElementWithLocators.t) : bool :=
  String.eqb (ElementWithLocators.text el) "Confirm".

End Scenario.

(** * Properties *)

(** ** Strings *)

Lemma truthy_nonempty (s : string) : Js.truthy s = true <-> s <> "".
Proof.
  destruct s; simpl; split; intro H; try discriminate; try reflexivity.
  now elim H.
Qed.

Lemma truthy_empty (s : string) : Js.truthy s = false <-> s = "".
Proof.
  destruct s; simpl; split; intro H; try discriminate; reflexivity.
Qed.

Lemma or_firstNonEmpty (a b c : string) :
  Js.or (Js.or a b) c = firstNonEmpty a b c.
Proof.
  unfold Js.or, firstNonEmpty.
  destruct (string_dec a "") as [-> | Ha]; simpl.
  - destruct (string_dec b "") as [-> | Hb]; simpl; [reflexivity |].
    apply truthy_nonempty in Hb. now rewrite Hb.
  - apply truthy_nonempty in Ha. now rewrite !Ha.
Qed.

Lemma startsWith_spec (s t : string) :
  Js.startsWith s t = true <-> exists after, s = (t ++ after)%string.
Proof.
  revert s; induction t as [| c t IH]; intros s; simpl.
  - split; [intros _; now exists s | reflexivity].
  - destruct s as [| d s].
    + split; [discriminate | intros [after H]; discriminate].
    + rewrite andb_true_iff, Ascii.eqb_eq, IH. split.
      * intros [-> [after ->]]. now exists after.
      * intros [after H]. injection H as -> ->. split; [reflexivity |].
        now exists after.
Qed.

Lemma includes_spec (s t : string) :
  Js.includes s t = true <-> Contains s t.
Proof.
  unfold Contains. induction s as [| d s IH]; simpl.
  - rewrite orb_false_r, startsWith_spec. split.
    + intros [after H]. now exists ""%string, after.
    + intros [before [after H]]. destruct before; simpl in H.
      * now exists after.
      * discriminate.
  - rewrite orb_true_iff, IH, startsWith_spec. split.
    + intros [[after H] | [before [after H]]].
      * now exists ""%string, after.
      * exists (String d before), after. simpl. now rewrite H.
    + intros [before [after H]]. destruct before as [| c before]; simpl in H.
      * left. now exists after.
      * right. injection H as _ ->. now exists before, after.
Qed.

(** The message of an error is the tail of its rendering. *)
Lemma toString_ends_with_message (e : Js.Error) :
  exists before, Js.toString e = (before ++ Js.message e)%string.
Proof.
  unfold Js.toString.
  destruct (Js.truthy (Js.name e)) eqn:Hn; simpl.
  - destruct (Js.truthy (Js.message e)) eqn:Hm; simpl.
    + exists (Js.name e ++ ": ")%string.
      generalize (Js.name e) as n. induction n as [| c n IH]; simpl.
      * reflexivity.
      * now rewrite IH.
    + apply truthy_empty in Hm. rewrite Hm. exists (Js.name e).
      generalize (Js.name e) as n. induction n as [| c n IH]; simpl.
      * reflexivity.
      * now rewrite <- IH.
  - now exists ""%string.
Qed.

(** ** Arrays *)

Lemma sameKey_spec (item t : Alternate.t) :
  sameKey item t = true <-> Alternate.key t = Alternate.key item.
Proof.
  unfold sameKey, Alternate.key.
  rewrite andb_true_iff, !String.eqb_eq. split.
  - intros [-> ->]. reflexivity.
  - intros H. injection H as -> ->. split; reflexivity.
Qed.

Lemma sameKey_refl (item : Alternate.t) : sameKey item item = true.
Proof. apply sameKey_spec. reflexivity. Qed.

Lemma existsb_sameKey (item : Alternate.t) (l : list Alternate.t) :
  existsb (sameKey item) l = true <->
  In (Alternate.key item) (map Alternate.key l).
Proof.
  rewrite existsb_exists, in_map_iff. split.
  - intros [t [Hin Hk]]. exists t. split; [now apply sameKey_spec | exact Hin].
  - intros [t [Hk Hin]]. exists t. split; [exact Hin | now apply sameKey_spec].
Qed.

Lemma findIndexFrom_hit {A : Type} (p : A -> bool) (l : list A) (i : Z) :
  existsb p l = true ->
  (i <= Js.findIndexFrom p l i < i + Z.of_nat (List.length l))%Z.
Proof.
  revert i. induction l as [| x l IH]; intros i; simpl; [discriminate |].
  destruct (p x); simpl; [lia |].
  intros H. specialize (IH (i + 1)%Z H). lia.
Qed.

Lemma findIndexFrom_app {A : Type} (p : A -> bool) (pre l : list A) (i : Z) :
  existsb p pre = false ->
  Js.findIndexFrom p (pre ++ l) i =
  Js.findIndexFrom p l (i + Z.of_nat (List.length pre))%Z.
Proof.
  revert i. induction pre as [| x pre IH]; intros i; simpl.
  - intros _. f_equal. lia.
  - destruct (p x); simpl; [discriminate |].
    intros H. rewrite (IH _ H). f_equal. lia.
Qed.

Lemma findIndexFrom_app_hit {A : Type} (p : A -> bool) (pre l : list A)
  (i : Z) :
  existsb p pre = true ->
  Js.findIndexFrom p (pre ++ l) i = Js.findIndexFrom p pre i.
Proof.
  revert i. induction pre as [| x pre IH]; intros i; simpl; [discriminate |].
  destruct (p x); simpl; [reflexivity |]. intros H. now apply IH.
Qed.

(** At the position after [pre], an item is its own first occurrence
    exactly when nothing in [pre] has its key. *)
Lemma first_occurrence_test (pre suf : list Alternate.t) (x : Alternate.t) :
  Z.eqb (Z.of_nat (List.length pre))
        (Js.findIndex (sameKey x) (pre ++ x :: suf)) =
  negb (existsb (sameKey x) pre).
Proof.
  unfold Js.findIndex. destruct (existsb (sameKey x) pre) eqn:E; simpl.
  - rewrite (findIndexFrom_app_hit _ _ _ _ E).
    pose proof (findIndexFrom_hit _ _ 0%Z E). apply Z.eqb_neq. lia.
  - rewrite (findIndexFrom_app _ _ _ _ E). simpl.
    rewrite sameKey_refl. apply Z.eqb_eq. lia.
Qed.

Lemma filterFrom_firstSeen (self pre suf : list Alternate.t) :
  self = pre ++ suf ->
  Js.filterFrom
    (fun item index => Z.eqb index (Js.findIndex (sameKey item) self))
    suf (Z.of_nat (List.length pre)) =
  firstSeen pre suf.
Proof.
  revert pre. induction suf as [| x suf IH]; intros pre Hself; simpl.
  - reflexivity.
  - assert (Hnext : (Z.of_nat (List.length pre) + 1)%Z =
                    Z.of_nat (List.length (pre ++ [x]))).
    { rewrite length_app. simpl. lia. }
    assert (Hself' : self = (pre ++ [x]) ++ suf).
    { rewrite <- app_assoc. exact Hself. }
    rewrite Hnext, (IH _ Hself').
    rewrite Hself at 1. rewrite first_occurrence_test.
    destruct (existsb (sameKey x) pre); reflexivity.
Qed.

Lemma uniqueAlternates_firstSeen (l : list Alternate.t) :
  uniqueAlternates l = firstSeen [] l.
Proof.
  unfold uniqueAlternates, Js.filter.
  exact (filterFrom_firstSeen l [] l eq_refl).
Qed.

Lemma firstSeen_Subsequence (seen l : list Alternate.t) :
  Subsequence (firstSeen seen l) l.
Proof.
  revert seen. induction l as [| x l IH]; intros seen; simpl.
  - constructor.
  - destruct (existsb (sameKey x) seen); constructor; apply IH.
Qed.

(** An item is kept exactly where it has no earlier item of its key. *)
Lemma firstSeen_In (seen l : list Alternate.t) (a : Alternate.t) :
  In a (firstSeen seen l) <->
  exists pre suf,
    l = pre ++ a :: suf /\ existsb (sameKey a) (seen ++ pre) = false.
Proof.
  revert seen. induction l as [| x l IH]; intros seen; simpl.
  - split; [intros [] | intros [pre [suf [H _]]]; now destruct pre].
  - assert (Htail :
      In a (firstSeen (seen ++ [x]) l) <->
      exists pre suf,
        x :: l = (x :: pre) ++ a :: suf /\
        existsb (sameKey a) (seen ++ x :: pre) = false).
    { rewrite IH. split; intros [pre [suf [H1 H2]]]; exists pre, suf.
      - split; [simpl; now rewrite H1 |].
        rewrite <- app_assoc in H2. exact H2.
      - split; [simpl in H1; now injection H1 |].
        rewrite <- app_assoc. exact H2. }
    split.
    + intros H.
      assert (Hcases : (a = x /\ existsb (sameKey x) seen = false) \/
                       In a (firstSeen (seen ++ [x]) l)).
      { destruct (existsb (sameKey x) seen); [now right |].
        destruct H as [-> | H]; [now left | now right]. }
      destruct Hcases as [[-> Hx] | Hin].
      * exists [], l. split; [reflexivity | now rewrite app_nil_r].
      * apply Htail in Hin. destruct Hin as [pre [suf [H1 H2]]].
        now exists (x :: pre), suf.
    + intros [pre [suf [H1 H2]]]. destruct pre as [| y pre]; simpl in H1.
      * injection H1 as -> ->. rewrite app_nil_r in H2. rewrite H2. now left.
      * injection H1 as -> ->.
        assert (Hin : In a (firstSeen (seen ++ [y]) (pre ++ a :: suf))).
        { apply Htail. now exists pre, suf. }
        destruct (existsb (sameKey y) seen); [exact Hin | now right].
Qed.

Lemma firstSeen_fresh (seen l : list Alternate.t) (a : Alternate.t) :
  In a (firstSeen seen l) -> existsb (sameKey a) seen = false.
Proof.
  intros H. apply firstSeen_In in H. destruct H as [pre [suf [_ H]]].
  rewrite existsb_app in H. now apply orb_false_iff in H.
Qed.

Lemma firstSeen_NoDup (seen l : list Alternate.t) :
  NoDup (map Alternate.key (firstSeen seen l)).
Proof.
  revert seen. induction l as [| x l IH]; intros seen; simpl.
  - constructor.
  - destruct (existsb (sameKey x) seen); [apply IH |].
    simpl. constructor; [| apply IH].
    intros Hin. apply in_map_iff in Hin. destruct Hin as [a [Hk Ha]].
    apply firstSeen_fresh in Ha.
    rewrite existsb_app in Ha. apply orb_false_iff in Ha.
    destruct Ha as [_ Ha]. simpl in Ha. rewrite orb_false_r in Ha.
    assert (sameKey a x = true) by now apply sameKey_spec.
    congruence.
Qed.

(** Every key of the list keeps a representative. *)
Lemma firstSeen_covers (seen l : list Alternate.t) (x : Alternate.t) :
  In x l ->
  existsb (sameKey x) seen = false ->
  exists a, In a (firstSeen seen l) /\ Alternate.key a = Alternate.key x.
Proof.
  revert seen. induction l as [| y l IH]; intros seen Hin Hseen; simpl.
  - destruct Hin.
  - destruct (existsb (sameKey y) seen) eqn:Ey.
    + destruct Hin as [-> | Hin]; [congruence |].
      destruct (sameKey x y) eqn:Exy.
      * apply sameKey_spec in Exy.
        apply existsb_sameKey in Ey. rewrite Exy in Ey.
        apply existsb_sameKey in Ey. congruence.
      * apply IH; [exact Hin |].
        rewrite existsb_app, Hseen. simpl. now rewrite Exy.
    + destruct (sameKey x y) eqn:Exy.
      * exists y. split; [now left | now apply sameKey_spec].
      * destruct Hin as [-> | Hin]; [now rewrite sameKey_refl in Exy |].
        destruct (IH (seen ++ [y]) Hin) as [a [Ha Hk]].
        { rewrite existsb_app, Hseen. simpl. now rewrite Exy. }
        exists a. split; [now right | exact Hk].
Qed.

Lemma NoDup_firstn {A : Type} (n : nat) (l : list A) :
  NoDup l -> NoDup (firstn n l).
Proof.
  intros H. rewrite <- (firstn_skipn n l) in H.
  now apply NoDup_app_remove_r in H.
Qed.

Lemma slice_0 {A : Type} (n : nat) (l : list A) :
  Js.slice 0 n l = firstn n l.
Proof. unfold Js.slice. simpl. now rewrite Nat.sub_0_r. Qed.

(** ** The loop of [findAlternateLocators] *)

Section SearchProperties.

Variable toLowerCase : string -> string.

Lemma push_all (element : ElementWithLocators.t)
  (entries : list (string * string)) (alternates : list Alternate.t) :
  fold_left (fun acc entry => Js.push acc (mkAlternate element entry))
            entries alternates =
  alternates ++ map (mkAlternate element) entries.
Proof.
  revert alternates. induction entries as [| entry entries IH];
    intros alternates; simpl.
  - now rewrite app_nil_r.
  - rewrite IH. unfold Js.push. now rewrite <- app_assoc.
Qed.

Lemma pushTextMatches_app (userLocator : UserLocatorEntry.t)
  (element : ElementWithLocators.t) (alternates : list Alternate.t) :
  pushTextMatches toLowerCase userLocator element alternates =
  alternates ++
  (if textMatches toLowerCase userLocator element
   then map (mkAlternate element) (ElementWithLocators.locators element)
   else []).
Proof.
  unfold pushTextMatches.
  destruct (textMatches toLowerCase userLocator element).
  - apply push_all.
  - now rewrite app_nil_r.
Qed.

Lemma push_others (userLocator : UserLocatorEntry.t)
  (element : ElementWithLocators.t) (entries : list (string * string))
  (alternates : list Alternate.t) :
  fold_left
    (fun acc entry =>
       if negb (String.eqb (fst entry)
                           (UserLocatorEntry.LocatorStrategy userLocator))
       then Js.push acc (mkAlternate element entry)
       else acc)
    entries alternates =
  alternates ++
  map (mkAlternate element) (List.filter (otherStrategy userLocator) entries).
Proof.
  revert alternates. induction entries as [| entry entries IH];
    intros alternates; simpl.
  - now rewrite app_nil_r.
  - rewrite IH. unfold otherStrategy at 2.
    destruct (negb (String.eqb (fst entry)
                      (UserLocatorEntry.LocatorStrategy userLocator))).
    + unfold Js.push. now rewrite <- app_assoc.
    + reflexivity.
Qed.

Lemma pushOtherStrategies_app (userLocator : UserLocatorEntry.t)
  (element : ElementWithLocators.t) (alternates : list Alternate.t) :
  pushOtherStrategies userLocator element alternates =
  alternates ++
  map (mkAlternate element)
      (List.filter (otherStrategy userLocator)
                   (ElementWithLocators.locators element)).
Proof. apply push_others. Qed.

(** The selector test adds the other strategies once for every selector of
    the element that equals the user's selector. *)
Lemma push_exact (userLocator : UserLocatorEntry.t)
  (element : ElementWithLocators.t) (selectors : list string)
  (alternates : list Alternate.t) :
  fold_left
    (fun acc selector =>
       if String.eqb selector (UserLocatorEntry.Locators userLocator)
       then pushOtherStrategies userLocator element acc
       else acc)
    selectors alternates =
  alternates ++
  flat_map
    (fun selector =>
       if String.eqb selector (UserLocatorEntry.Locators userLocator)
       then map (mkAlternate element)
                (List.filter (otherStrategy userLocator)
                             (ElementWithLocators.locators element))
       else [])
    selectors.
Proof.
  revert alternates. induction selectors as [| selector selectors IH];
    intros alternates; simpl.
  - now rewrite app_nil_r.
  - rewrite IH.
    destruct (String.eqb selector (UserLocatorEntry.Locators userLocator)).
    + rewrite pushOtherStrategies_app. now rewrite <- app_assoc.
    + reflexivity.
Qed.

Lemma pushExactMatches_app (userLocator : UserLocatorEntry.t)
  (element : ElementWithLocators.t) (alternates : list Alternate.t) :
  pushExactMatches userLocator element alternates =
  alternates ++ exactEmitted userLocator element.
Proof.
  unfold exactEmitted, pushExactMatches. now rewrite !push_exact.
Qed.

Lemma emitted_split (userLocator : UserLocatorEntry.t)
  (element : ElementWithLocators.t) :
  emitted toLowerCase userLocator element =
  textEmitted toLowerCase userLocator element ++
  exactEmitted userLocator element.
Proof. unfold emitted, textEmitted. apply pushExactMatches_app. Qed.

Lemma textEmitted_spec (userLocator : UserLocatorEntry.t)
  (element : ElementWithLocators.t) :
  textEmitted toLowerCase userLocator element =
  if textMatches toLowerCase userLocator element
  then map (mkAlternate element) (ElementWithLocators.locators element)
  else [].
Proof. unfold textEmitted. now rewrite pushTextMatches_app. Qed.

Lemma exactEmitted_In (userLocator : UserLocatorEntry.t)
  (element : ElementWithLocators.t) (a : Alternate.t) :
  In a (exactEmitted userLocator element) <->
  exactMatches userLocator element = true /\
  exists entry,
    In entry (ElementWithLocators.locators element) /\
    otherStrategy userLocator entry = true /\
    a = mkAlternate element entry.
Proof.
  unfold exactEmitted, pushExactMatches. rewrite push_exact. simpl.
  rewrite in_flat_map. unfold exactMatches. rewrite existsb_exists. split.
  - intros [selector [Hsel Ha]]. apply in_map_iff in Hsel.
    destruct Hsel as [entry0 [<- Hentry0]].
    destruct (String.eqb (snd entry0) (UserLocatorEntry.Locators userLocator))
      eqn:E; [| destruct Ha].
    split; [now exists entry0 |].
    apply in_map_iff in Ha. destruct Ha as [entry [<- Hentry]].
    apply filter_In in Hentry. destruct Hentry as [Hentry Hother].
    now exists entry.
  - intros [[entry0 [Hentry0 E]] [entry [Hentry [Hother ->]]]].
    exists (snd entry0). split; [now apply in_map |].
    rewrite E. apply in_map. apply filter_In. now split.
Qed.

Lemma collect_from (userLocator : UserLocatorEntry.t)
  (elements : list ElementWithLocators.t) (alternates : list Alternate.t) :
  fold_left
    (fun alternates element =>
       pushExactMatches userLocator element
         (pushTextMatches toLowerCase userLocator element alternates))
    elements alternates =
  alternates ++ flat_map (emitted toLowerCase userLocator) elements.
Proof.
  revert alternates. induction elements as [| element elements IH];
    intros alternates; simpl.
  - now rewrite app_nil_r.
  - rewrite IH, emitted_split, pushExactMatches_app, pushTextMatches_app.
    rewrite <- textEmitted_spec. now rewrite <- !app_assoc.
Qed.

Lemma collectAlternates_flat_map (userLocator : UserLocatorEntry.t)
  (elements : list ElementWithLocators.t) :
  collectAlternates toLowerCase userLocator elements =
  flat_map (emitted toLowerCase userLocator) elements.
Proof. unfold collectAlternates. now rewrite collect_from. Qed.

Lemma findAlternateLocators_spec (userLocator : UserLocatorEntry.t)
  (elements : list ElementWithLocators.t) :
  findAlternateLocators toLowerCase userLocator elements =
  firstn 5
    (firstSeen [] (flat_map (emitted toLowerCase userLocator) elements)).
Proof.
  unfold findAlternateLocators.
  now rewrite slice_0, uniqueAlternates_firstSeen, collectAlternates_flat_map.
Qed.

End SearchProperties.

(** ** The tool body *)

Lemma filter_partition_length {A : Type} (f : A -> bool) (l : list A) :
  List.length (List.filter f l) +
  List.length (List.filter (fun x => negb (f x)) l) =
  List.length l.
Proof.
  induction l as [| x l IH]; simpl; [reflexivity |].
  destruct (f x); simpl; lia.
Qed.

Lemma buildReport_counts (results : list ValidationResult.t) :
  Report.totalChecked (buildReport results) = List.length results /\
  Report.foundCount (buildReport results) +
  Report.missingCount (buildReport results) =
  Report.totalChecked (buildReport results) /\
  List.length (Report.foundLocators (buildReport results)) =
  Report.foundCount (buildReport results) /\
  List.length (Report.missingLocators (buildReport results)) =
  Report.missingCount (buildReport results).
Proof.
  unfold buildReport; simpl. rewrite !length_map.
  repeat split. apply filter_partition_length.
Qed.

Section ToolProperties.

Variable toLowerCase : string -> string.
Variable path_resolve : string -> string.
Variable JSON_parse : string -> Completion JsonValue.
Variable generateAllElementLocators :
  string -> bool -> string -> Completion (list ElementWithLocators.t).

(** One turn of the loop: it returns, having pushed one result and made one
    [findElement] call. *)
Lemma checkEntry_step (driver : Driver)
  (allCurrentPageElements : list ElementWithLocators.t)
  (userLocator : UserLocatorEntry.t) (results : list ValidationResult.t)
  (log : list Event) :
  exists result,
    checkEntry toLowerCase driver allCurrentPageElements userLocator results
      log =
    (Return (results ++ [result]),
     log ++ [FindElement (UserLocatorEntry.LocatorStrategy userLocator)
                         (UserLocatorEntry.Locators userLocator)
                         (ValidationResult.found result)]) /\
    ValidationResult.pageName result = UserLocatorEntry.pageName userLocator /\
    ValidationResult.pageElementName result =
      UserLocatorEntry.pageElementName userLocator /\
    ValidationResult.primaryStrategy result =
      UserLocatorEntry.LocatorStrategy userLocator /\
    ValidationResult.primaryLocator result =
      UserLocatorEntry.Locators userLocator /\
    match findElement driver log
            (UserLocatorEntry.LocatorStrategy userLocator)
            (UserLocatorEntry.Locators userLocator) with
    | Return _ =>
        ValidationResult.found result = true /\
        ValidationResult.alternateLocators result = None /\
        ValidationResult.error result = None
    | Throw err =>
        ValidationResult.found result = false /\
        ValidationResult.alternateLocators result =
          Some (findAlternateLocators toLowerCase userLocator
                  allCurrentPageElements) /\
        ValidationResult.error result = Some (Js.toString err)
    end.
Proof.
  unfold checkEntry, tryCatch, bind, callFindElement, ret, Js.push.
  destruct (findElement driver log
              (UserLocatorEntry.LocatorStrategy userLocator)
              (UserLocatorEntry.Locators userLocator)) as [handle | err].
  - exists (ValidationResult.mk
              (UserLocatorEntry.pageName userLocator)
              (UserLocatorEntry.pageElementName userLocator)
              (UserLocatorEntry.LocatorStrategy userLocator)
              (UserLocatorEntry.Locators userLocator)
              true None None).
    simpl. repeat split.
  - exists (ValidationResult.mk
              (UserLocatorEntry.pageName userLocator)
              (UserLocatorEntry.pageElementName userLocator)
              (UserLocatorEntry.LocatorStrategy userLocator)
              (UserLocatorEntry.Locators userLocator)
              false
              (Some (findAlternateLocators toLowerCase userLocator
                       allCurrentPageElements))
              (Some (Js.toString err))).
    simpl. repeat split.
Qed.

Lemma checkEntry_ResultFor (driver : Driver)
  (allCurrentPageElements : list ElementWithLocators.t)
  (userLocator : UserLocatorEntry.t) (results : list ValidationResult.t)
  (log : list Event) :
  exists result resolved,
    checkEntry toLowerCase driver allCurrentPageElements userLocator results
      log =
    (Return (results ++ [result]),
     log ++ [FindElement (UserLocatorEntry.LocatorStrategy userLocator)
                         (UserLocatorEntry.Locators userLocator) resolved]) /\
    ResultFor toLowerCase allCurrentPageElements userLocator result.
Proof.
  destruct (checkEntry_step driver allCurrentPageElements userLocator results
              log) as [result [Hrun [H1 [H2 [H3 [H4 Hcase]]]]]].
  exists result, (ValidationResult.found result).
  split; [exact Hrun |].
  unfold ResultFor. repeat (split; [assumption |]).
  destruct (findElement driver log
              (UserLocatorEntry.LocatorStrategy userLocator)
              (UserLocatorEntry.Locators userLocator)) as [handle | err].
  - now left.
  - right. destruct Hcase as [Hf [Ha He]]. repeat split; try assumption.
    now exists err.
Qed.

(** The loop returns whatever the resolutions answer: one result and one
    [findElement] call per entry, in the order of the entries. *)
Lemma checkEach_spec (driver : Driver)
  (allCurrentPageElements : list ElementWithLocators.t)
  (userLocators : list UserLocatorEntry.t) :
  forall (results : list ValidationResult.t) (log : list Event),
  exists added finds,
    checkEach toLowerCase driver allCurrentPageElements userLocators results
      log =
    (Return (results ++ added), log ++ finds) /\
    Forall2 (ResultFor toLowerCase allCurrentPageElements)
            userLocators added /\
    forallb isFindElement finds = true /\
    List.length finds = List.length userLocators.
Proof.
  induction userLocators as [| userLocator rest IH]; intros results log.
  - exists [], []. simpl. unfold ret. rewrite !app_nil_r.
    repeat split. constructor.
  - destruct (checkEntry_ResultFor driver allCurrentPageElements userLocator
                results log) as [result [resolved [Hrun Hres]]].
    destruct (IH (results ++ [result])
                 (log ++ [FindElement
                            (UserLocatorEntry.LocatorStrategy userLocator)
                            (UserLocatorEntry.Locators userLocator) resolved]))
      as [added [finds [Hloop [Hall [Hfinds Hlen]]]]].
    exists (result :: added),
           (FindElement (UserLocatorEntry.LocatorStrategy userLocator)
                        (UserLocatorEntry.Locators userLocator) resolved
            :: finds).
    simpl. unfold bind. rewrite Hrun, Hloop.
    rewrite <- !app_assoc. simpl. repeat split.
    + now constructor.
    + exact Hfinds.
    + now rewrite Hlen.
Qed.

End ToolProperties.

(** Unfolds the combinators of [M] down to pairs of completion and log. *)
Ltac unfold_M := unfold bind, tryCatch, pure, throw, ret.

Section RunProperties.

Variable toLowerCase : string -> string.
Variable path_resolve : string -> string.
Variable JSON_parse : string -> Completion JsonValue.
Variable generateAllElementLocators :
  string -> bool -> string -> Completion (list ElementWithLocators.t).

(** Reading the locator file leaves the session alone. *)
Lemma readUserLocators_log (host : Host) (args : Args) (log : list Event) :
  snd (readUserLocators path_resolve JSON_parse host args log) = log.
Proof.
  unfold readUserLocators; unfold_M.
  destruct (negb (existsSync host (path_resolve (locatorFilePath args))));
    [reflexivity |].
  destruct (readFileSync host (path_resolve (locatorFilePath args)))
    as [fileContent | e]; [| reflexivity].
  destruct (JSON_parse fileContent) as [[items |] | e]; reflexivity.
Qed.

(** Its outcome does not depend on the log either. *)
Lemma readUserLocators_any_log (host : Host) (args : Args)
  (log log' : list Event) :
  fst (readUserLocators path_resolve JSON_parse host args log) =
  fst (readUserLocators path_resolve JSON_parse host args log').
Proof.
  unfold readUserLocators; unfold_M.
  destruct (negb (existsSync host (path_resolve (locatorFilePath args))));
    [reflexivity |].
  destruct (readFileSync host (path_resolve (locatorFilePath args)))
    as [fileContent | e]; [| reflexivity].
  destruct (JSON_parse fileContent) as [[items |] | e]; reflexivity.
Qed.

(** An unfit locator file makes the reading throw. *)
Lemma readUserLocators_unfit (host : Host) (args : Args) (log : list Event) :
  LocatorFileMissing path_resolve host args \/
  LocatorFileUnparsable path_resolve JSON_parse host args \/
  LocatorFileNotArray path_resolve JSON_parse host args ->
  exists e,
    readUserLocators path_resolve JSON_parse host args log = (Throw e, log).
Proof.
  unfold LocatorFileMissing, LocatorFileUnparsable, LocatorFileNotArray.
  unfold readUserLocators; unfold_M.
  intros [Hmiss | [[Hex [fileContent [e [Hread Hparse]]]]
                  | [Hex [fileContent [Hread Hparse]]]]].
  - rewrite Hmiss. simpl. eexists. reflexivity.
  - rewrite Hex, Hread, Hparse. simpl. eexists. reflexivity.
  - rewrite Hex, Hread, Hparse. simpl. eexists. reflexivity.
Qed.

(** The snapshot costs one page-source read, then one driver-name read. *)
Lemma captureSnapshot_log (driver : Driver) (log : list Event) :
  snd (captureSnapshot toLowerCase generateAllElementLocators driver log) =
    log ++ [GetPageSource] \/
  snd (captureSnapshot toLowerCase generateAllElementLocators driver log) =
    log ++ [GetPageSource; AutomationName].
Proof.
  unfold captureSnapshot, readDriverName, callGetPageSource,
    readAutomationName; unfold_M.
  destruct (getPageSource driver log) as [pageSource | e]; [| now left].
  right. rewrite <- app_assoc. simpl.
  destruct (automationName driver (log ++ [GetPageSource])); reflexivity.
Qed.

Lemma captureSnapshot_returns (driver : Driver) (log log' : list Event)
  (elements : list ElementWithLocators.t) :
  captureSnapshot toLowerCase generateAllElementLocators driver log =
    (Return elements, log') ->
  log' = log ++ [GetPageSource; AutomationName].
Proof.
  unfold captureSnapshot, readDriverName, callGetPageSource,
    readAutomationName; unfold_M.
  destruct (getPageSource driver log) as [pageSource | e]; [| discriminate].
  rewrite <- app_assoc. simpl.
  destruct (automationName driver (log ++ [GetPageSource]));
    intros H; now inversion H.
Qed.

(** [execute] by cases on its three stages. *)
Lemma execute_stages (host : Host) (args : Args) (log : list Event)
  (driver : Driver) :
  getDriver host = Some driver ->
  execute toLowerCase path_resolve JSON_parse generateAllElementLocators
    host args log =
  match readUserLocators path_resolve JSON_parse host args log with
  | (Throw e, log1) =>
      (Throw (Js.newError
                ("Failed to check locators: " ++ Js.message e)%string), log1)
  | (Return userLocators, log1) =>
      match captureSnapshot toLowerCase generateAllElementLocators driver
              log1 with
      | (Throw e, log2) =>
          (Throw (Js.newError
                    ("Failed to check locators: " ++ Js.message e)%string),
           log2)
      | (Return allCurrentPageElements, log2) =>
          match checkEach toLowerCase driver allCurrentPageElements
                  userLocators [] log2 with
          | (Throw e, log3) =>
              (Throw (Js.newError
                        ("Failed to check locators: " ++
                         Js.message e)%string), log3)
          | (Return results, log3) => (Return (buildReport results), log3)
          end
      end
  end.
Proof.
  intros Hdriver. unfold execute. rewrite Hdriver.
  unfold_M.
  destruct (readUserLocators path_resolve JSON_parse host args log)
    as [[userLocators | e] log1]; [| reflexivity].
  destruct (captureSnapshot toLowerCase generateAllElementLocators driver
              log1) as [[allCurrentPageElements | e] log2]; [| reflexivity].
  destruct (checkEach toLowerCase driver allCurrentPageElements userLocators
              [] log2) as [[results | e] log3]; reflexivity.
Qed.

End RunProperties.

(** * The claims *)

(** ** Text similarity *)

(** C1, as the code has it. An Element Node matches by text similarity if
    and only if the target label is non-empty, the node has a label (its
    [text], falling back to [contentDesc], falling back to [resourceId],
    first non-empty wins), and that one label contains the target label
    case-insensitively; the target label is [fieldName], falling back to
    [remarks], falling back to [pageElementName], first non-empty wins. *)
Theorem text_similarity_on_first_label (toLowerCase : string -> string)
  (userLocator : UserLocatorEntry.t) (element : ElementWithLocators.t) :
  textMatches toLowerCase userLocator element = true <->
  targetLabel userLocator <> "" /\
  elementLabel element <> "" /\
  ContainsIgnoreCase toLowerCase (elementLabel element)
                     (targetLabel userLocator).
Proof.
  unfold textMatches, ContainsIgnoreCase, targetLabel, elementLabel.
  unfold targetText, elementText. rewrite !or_firstNonEmpty.
  rewrite !andb_true_iff, !truthy_nonempty, includes_spec.
  tauto.
Qed.

(** C1 as stated fails: the label of the node may miss the target while
    another attribute of the node contains it, and the node is not matched. *)
Lemma text_similarity_ignores_later_attributes :
  ~ (textMatches Js.asciiToLowerCase Sample.submitEntry Sample.cancelButton
       = true <->
     AnyAttributeContainsLabel Js.asciiToLowerCase Sample.submitEntry
       Sample.cancelButton).
Proof.
  intros [_ H].
  assert (Hspec : AnyAttributeContainsLabel Js.asciiToLowerCase
                    Sample.submitEntry Sample.cancelButton).
  { right; left. exists ""%string, " later"%string. reflexivity. }
  apply H in Hspec. vm_compute in Hspec. discriminate.
Qed.

(** ** What one matching element contributes *)

(** C2, as the code has it. Visiting an element adds its text-derived
    alternates followed by its exact-reuse-derived ones. A text match adds
    the candidate of every strategy of the element, the tried strategy
    included, in the element's order; an exact selector match adds exactly
    the candidates under the strategies other than the tried one, so the
    tried strategy never appears among those. *)
Theorem emitted_per_match (toLowerCase : string -> string)
  (userLocator : UserLocatorEntry.t) (element : ElementWithLocators.t) :
  emitted toLowerCase userLocator element =
    textEmitted toLowerCase userLocator element ++
    exactEmitted userLocator element /\
  textEmitted toLowerCase userLocator element =
    (if textMatches toLowerCase userLocator element
     then map (mkAlternate element) (ElementWithLocators.locators element)
     else []) /\
  (forall a,
     In a (exactEmitted userLocator element) <->
     exactMatches userLocator element = true /\
     exists entry,
       In entry (ElementWithLocators.locators element) /\
       otherStrategy userLocator entry = true /\
       a = mkAlternate element entry) /\
  (forall a,
     In a (exactEmitted userLocator element) ->
     Alternate.strategy a <> UserLocatorEntry.LocatorStrategy userLocator).
Proof.
  split; [apply emitted_split |].
  split; [apply textEmitted_spec |].
  split; [intros a; apply exactEmitted_In |].
  intros a Ha. apply exactEmitted_In in Ha.
  destruct Ha as [_ [entry [_ [Hother ->]]]].
  unfold otherStrategy in Hother. simpl.
  apply negb_true_iff, String.eqb_neq in Hother. exact Hother.
Qed.

(** C2 as stated fails: a text match emits the candidate under the tried
    strategy as well. *)
Lemma text_match_emits_tried_strategy :
  ~ EmitsAllButTried Js.asciiToLowerCase Sample.submitEntry
      Sample.submitButton.
Proof.
  intros H.
  assert (Hmatch :
    textMatches Js.asciiToLowerCase Sample.submitEntry Sample.submitButton
      = true \/
    exactMatches Sample.submitEntry Sample.submitButton = true).
  { left. vm_compute. reflexivity. }
  specialize (H Hmatch
                (Alternate.mk "id" "com.app:id/submitBtn"
                              "android.widget.Button")).
  destruct H as [H _].
  destruct H as [entry [_ [Hother Heq]]].
  { vm_compute. left. reflexivity. }
  unfold mkAlternate in Heq. injection Heq as Hs _.
  unfold otherStrategy in Hother. rewrite <- Hs in Hother.
  vm_compute in Hother. discriminate.
Qed.

(** ** Exact selector reuse *)

Lemma In_firstn {A : Type} (n : nat) (l : list A) (x : A) :
  In x (firstn n l) -> In x l.
Proof.
  intros H. rewrite <- (firstn_skipn n l). apply in_or_app. now left.
Qed.

Lemma firstn_all_short {A : Type} (n : nat) (l : list A) :
  List.length l <= n -> firstn n l = l.
Proof. intros H. now apply firstn_all2. Qed.

(** The other strategies of a node that carries the user's selector survive
    the duplicate removal. *)
Lemma other_strategies_collected (toLowerCase : string -> string)
  (userLocator : UserLocatorEntry.t)
  (allCurrentPageElements : list ElementWithLocators.t)
  (element : ElementWithLocators.t) (entry : string * string) :
  In element allCurrentPageElements ->
  exactMatches userLocator element = true ->
  In entry (ElementWithLocators.locators element) ->
  otherStrategy userLocator entry = true ->
  exists a,
    In a (uniqueAlternates
            (collectAlternates toLowerCase userLocator
               allCurrentPageElements)) /\
    Alternate.key a = entry.
Proof.
  intros Hel Hexact Hentry Hother.
  rewrite uniqueAlternates_firstSeen, collectAlternates_flat_map.
  destruct (firstSeen_covers []
              (flat_map (emitted toLowerCase userLocator)
                 allCurrentPageElements)
              (mkAlternate element entry)) as [a [Ha Hk]].
  - apply in_flat_map. exists element. split; [exact Hel |].
    rewrite emitted_split. apply in_or_app. right.
    apply exactEmitted_In. split; [exact Hexact |]. now exists entry.
  - reflexivity.
  - exists a. split; [exact Ha |]. rewrite Hk.
    unfold Alternate.key, mkAlternate. simpl. now destruct entry.
Qed.

(** C3, as the code has it. When the [Locators] string of a failed entry
    equals a candidate selector of an Element Node of the snapshot, every
    candidate of that node under another strategy than the tried one is,
    as a (strategy, selector) pair, among the deduplicated alternates; the
    returned alternates are the first five of these, so the pair is
    returned whenever at most five distinct alternates were collected. *)
Theorem exact_reuse_other_strategies (toLowerCase : string -> string)
  (userLocator : UserLocatorEntry.t)
  (allCurrentPageElements : list ElementWithLocators.t)
  (element : ElementWithLocators.t) (entry : string * string) :
  In element allCurrentPageElements ->
  exactMatches userLocator element = true ->
  In entry (ElementWithLocators.locators element) ->
  otherStrategy userLocator entry = true ->
  (exists a,
     In a (uniqueAlternates
             (collectAlternates toLowerCase userLocator
                allCurrentPageElements)) /\
     Alternate.key a = entry) /\
  findAlternateLocators toLowerCase userLocator allCurrentPageElements =
    firstn 5 (uniqueAlternates
                (collectAlternates toLowerCase userLocator
                   allCurrentPageElements)) /\
  (List.length (uniqueAlternates
                  (collectAlternates toLowerCase userLocator
                     allCurrentPageElements)) <= 5 ->
   exists a,
     In a (findAlternateLocators toLowerCase userLocator
             allCurrentPageElements) /\
     Alternate.key a = entry).
Proof.
  intros Hel Hexact Hentry Hother.
  pose proof (other_strategies_collected toLowerCase userLocator
                allCurrentPageElements element entry Hel Hexact Hentry Hother)
    as Hcollected.
  assert (Hcap :
    findAlternateLocators toLowerCase userLocator allCurrentPageElements =
    firstn 5 (uniqueAlternates
                (collectAlternates toLowerCase userLocator
                   allCurrentPageElements))).
  { unfold findAlternateLocators. apply slice_0. }
  split; [exact Hcollected |]. split; [exact Hcap |].
  intros Hshort. rewrite Hcap, (firstn_all_short _ _ Hshort).
  exact Hcollected.
Qed.

Lemma exact_reuse_other_strategies_witness :
  exists a,
    In a (findAlternateLocators Js.asciiToLowerCase Sample.unlabelledEntry
            [Sample.loginTitle; Sample.loginButton]) /\
    Alternate.key a = ("accessibility id", "Sign in").
Proof.
  apply (exact_reuse_other_strategies Js.asciiToLowerCase
           Sample.unlabelledEntry [Sample.loginTitle; Sample.loginButton]
           Sample.loginButton ("accessibility id", "Sign in")).
  - right; left. reflexivity.
  - reflexivity.
  - right; left. reflexivity.
  - reflexivity.
  - vm_compute. lia.
Defined.

(** C3 as stated fails: with five alternates ahead of them, the remaining
    strategies of the node that carries the user's selector are cut. *)
Lemma exact_reuse_cut_by_cap :
  ~ OtherStrategiesReturned Js.asciiToLowerCase Sample.loginEntry
      [Sample.loginTitle; Sample.loginButton].
Proof.
  intros H.
  destruct (H Sample.loginButton ("class name", "android.widget.Button"))
    as [a [Ha Hk]].
  - right; left. reflexivity.
  - reflexivity.
  - do 3 right. left. reflexivity.
  - reflexivity.
  - vm_compute in Ha.
    repeat (destruct Ha as [<- | Ha]; [discriminate Hk |]).
    exact Ha.
Qed.

(** ** The cap and the duplicate removal *)

(** C4. The alternates returned for an entry are at most five, and no two
    of them have the same strategy and the same selector. *)
Theorem alternates_capped_and_distinct (toLowerCase : string -> string)
  (userLocator : UserLocatorEntry.t)
  (allCurrentPageElements : list ElementWithLocators.t) :
  List.length (findAlternateLocators toLowerCase userLocator
                 allCurrentPageElements) <= 5 /\
  NoDup (map Alternate.key
           (findAlternateLocators toLowerCase userLocator
              allCurrentPageElements)) /\
  (forall i j a b,
     nth_error (findAlternateLocators toLowerCase userLocator
                  allCurrentPageElements) i = Some a ->
     nth_error (findAlternateLocators toLowerCase userLocator
                  allCurrentPageElements) j = Some b ->
     Alternate.strategy a = Alternate.strategy b ->
     Alternate.selector a = Alternate.selector b ->
     i = j).
Proof.
  rewrite findAlternateLocators_spec.
  set (l := firstSeen [] (flat_map (emitted toLowerCase userLocator)
                            allCurrentPageElements)).
  assert (Hnodup : NoDup (map Alternate.key (firstn 5 l))).
  { rewrite <- firstn_map. apply NoDup_firstn. apply firstSeen_NoDup. }
  split; [apply firstn_le_length |]. split; [exact Hnodup |].
  intros i j a b Hi Hj Hs Hsel.
  rewrite NoDup_nth_error in Hnodup. apply Hnodup.
  - rewrite length_map. apply nth_error_Some. congruence.
  - rewrite !nth_error_map, Hi, Hj. simpl. unfold Alternate.key. congruence.
Qed.

(** C5. The alternates are collected element by element in snapshot order,
    for each element the text-derived ones before the exact-reuse-derived
    ones; the duplicate removal leaves the items in their order, keeps an
    item exactly where no earlier item has its strategy and selector, and
    the first five of what is kept are returned. *)
Theorem dedup_keeps_first_seen_order (toLowerCase : string -> string)
  (userLocator : UserLocatorEntry.t)
  (allCurrentPageElements : list ElementWithLocators.t) :
  collectAlternates toLowerCase userLocator allCurrentPageElements =
    flat_map (fun element =>
                textEmitted toLowerCase userLocator element ++
                exactEmitted userLocator element)
             allCurrentPageElements /\
  (forall earlier later,
     collectAlternates toLowerCase userLocator (earlier ++ later) =
     collectAlternates toLowerCase userLocator earlier ++
     collectAlternates toLowerCase userLocator later) /\
  (forall alternates,
     Subsequence (uniqueAlternates alternates) alternates) /\
  (forall alternates a,
     In a (uniqueAlternates alternates) <->
     exists before after,
       alternates = before ++ a :: after /\
       existsb (sameKey a) before = false) /\
  (forall alternates, uniqueAlternates alternates = firstSeen [] alternates) /\
  findAlternateLocators toLowerCase userLocator allCurrentPageElements =
    firstn 5 (uniqueAlternates
                (collectAlternates toLowerCase userLocator
                   allCurrentPageElements)).
Proof.
  split.
  { rewrite collectAlternates_flat_map. apply flat_map_ext.
    intros element. apply emitted_split. }
  split.
  { intros earlier later. rewrite !collectAlternates_flat_map.
    apply flat_map_app. }
  split.
  { intros alternates. rewrite uniqueAlternates_firstSeen.
    apply firstSeen_Subsequence. }
  split.
  { intros alternates a. rewrite uniqueAlternates_firstSeen.
    apply (firstSeen_In [] alternates a). }
  split; [exact uniqueAlternates_firstSeen |].
  unfold findAlternateLocators. apply slice_0.
Qed.

(** ** Entries without a label *)

Lemma targetText_empty (userLocator : UserLocatorEntry.t) :
  UserLocatorEntry.fieldName userLocator = "" ->
  UserLocatorEntry.remarks userLocator = "" ->
  UserLocatorEntry.pageElementName userLocator = "" ->
  targetText userLocator = "".
Proof. unfold targetText. intros -> -> ->. reflexivity. Qed.

(** C10. When [fieldName], [remarks] and [pageElementName] of an entry are
    all empty, no Element Node matches by text similarity, the collected
    alternates are those of the exact selector test alone, and every
    returned alternate is a candidate, under another strategy than the
    tried one, of a node that carries the user's selector. *)
Theorem unlabelled_entry_exact_reuse_only (toLowerCase : string -> string)
  (userLocator : UserLocatorEntry.t)
  (allCurrentPageElements : list ElementWithLocators.t) :
  UserLocatorEntry.fieldName userLocator = "" ->
  UserLocatorEntry.remarks userLocator = "" ->
  UserLocatorEntry.pageElementName userLocator = "" ->
  (forall element, textMatches toLowerCase userLocator element = false) /\
  collectAlternates toLowerCase userLocator allCurrentPageElements =
    flat_map (exactEmitted userLocator) allCurrentPageElements /\
  (forall a,
     In a (findAlternateLocators toLowerCase userLocator
             allCurrentPageElements) ->
     exists element entry,
       In element allCurrentPageElements /\
       exactMatches userLocator element = true /\
       In entry (ElementWithLocators.locators element) /\
       otherStrategy userLocator entry = true /\
       a = mkAlternate element entry).
Proof.
  intros Hf Hr Hp.
  assert (Hno : forall element,
            textMatches toLowerCase userLocator element = false).
  { intros element. unfold textMatches.
    rewrite (targetText_empty userLocator Hf Hr Hp). simpl.
    now rewrite andb_false_r. }
  assert (Hcollect :
    collectAlternates toLowerCase userLocator allCurrentPageElements =
    flat_map (exactEmitted userLocator) allCurrentPageElements).
  { rewrite collectAlternates_flat_map. apply flat_map_ext.
    intros element. rewrite emitted_split, textEmitted_spec, Hno.
    reflexivity. }
  split; [exact Hno |]. split; [exact Hcollect |].
  intros a Ha. unfold findAlternateLocators in Ha.
  rewrite slice_0 in Ha. apply In_firstn in Ha.
  rewrite uniqueAlternates_firstSeen in Ha.
  apply firstSeen_In in Ha. destruct Ha as [before [after [Hsplit _]]].
  assert (Hin : In a (flat_map (exactEmitted userLocator)
                        allCurrentPageElements)).
  { rewrite <- Hcollect, Hsplit. apply in_or_app. right. now left. }
  apply in_flat_map in Hin. destruct Hin as [element [Hel Hemit]].
  apply exactEmitted_In in Hemit.
  destruct Hemit as [Hexact [entry [Hentry [Hother ->]]]].
  now exists element, entry.
Qed.

Lemma unlabelled_entry_exact_reuse_only_witness :
  (forall element,
     textMatches Js.asciiToLowerCase Sample.unlabelledEntry element = false) /\
  collectAlternates Js.asciiToLowerCase Sample.unlabelledEntry
    [Sample.loginTitle; Sample.loginButton] =
    flat_map (exactEmitted Sample.unlabelledEntry)
      [Sample.loginTitle; Sample.loginButton] /\
  (forall a,
     In a (findAlternateLocators Js.asciiToLowerCase Sample.unlabelledEntry
             [Sample.loginTitle; Sample.loginButton]) ->
     exists element entry,
       In element [Sample.loginTitle; Sample.loginButton] /\
       exactMatches Sample.unlabelledEntry element = true /\
       In entry (ElementWithLocators.locators element) /\
       otherStrategy Sample.unlabelledEntry entry = true /\
       a = mkAlternate element entry).
Proof.
  apply (unlabelled_entry_exact_reuse_only Js.asciiToLowerCase
           Sample.unlabelledEntry [Sample.loginTitle; Sample.loginButton]);
    reflexivity.
Defined.

(** ** The result of one entry *)

(** C6. Checking one entry always pushes one result and makes one
    [findElement] call. When the call resolves, the result has
    [found = true] and carries neither alternates nor an error; when it
    throws, the result has [found = false], the alternates searched in the
    snapshot, and the rendering of the thrown error, which ends with the
    error's message. *)
Theorem entry_result (toLowerCase : string -> string) (driver : Driver)
  (allCurrentPageElements : list ElementWithLocators.t)
  (userLocator : UserLocatorEntry.t) (results : list ValidationResult.t)
  (log : list Event) :
  exists result,
    checkEntry toLowerCase driver allCurrentPageElements userLocator results
      log =
    (Return (results ++ [result]),
     log ++ [FindElement (UserLocatorEntry.LocatorStrategy userLocator)
                         (UserLocatorEntry.Locators userLocator)
                         (ValidationResult.found result)]) /\
    ValidationResult.pageName result = UserLocatorEntry.pageName userLocator /\
    ValidationResult.pageElementName result =
      UserLocatorEntry.pageElementName userLocator /\
    ValidationResult.primaryStrategy result =
      UserLocatorEntry.LocatorStrategy userLocator /\
    ValidationResult.primaryLocator result =
      UserLocatorEntry.Locators userLocator /\
    match findElement driver log
            (UserLocatorEntry.LocatorStrategy userLocator)
            (UserLocatorEntry.Locators userLocator) with
    | Return _ =>
        ValidationResult.found result = true /\
        ValidationResult.alternateLocators result = None /\
        ValidationResult.error result = None
    | Throw err =>
        ValidationResult.found result = false /\
        ValidationResult.alternateLocators result =
          Some (findAlternateLocators toLowerCase userLocator
                  allCurrentPageElements) /\
        ValidationResult.error result = Some (Js.toString err) /\
        exists before, Js.toString err = (before ++ Js.message err)%string
    end.
Proof.
  destruct (checkEntry_step toLowerCase driver allCurrentPageElements
              userLocator results log)
    as [result [Hrun [H1 [H2 [H3 [H4 Hcase]]]]]].
  exists result. repeat (split; [assumption |]).
  destruct (findElement driver log
              (UserLocatorEntry.LocatorStrategy userLocator)
              (UserLocatorEntry.Locators userLocator)) as [handle | err].
  - exact Hcase.
  - destruct Hcase as [Hf [Ha He]]. repeat (split; [assumption |]).
    apply toString_ends_with_message.
Qed.

(** On the sample screen the cart icon resolves and the submit button does
    not. *)
Example cart_entry_is_found :
  checkEntry Js.asciiToLowerCase Sample.driver
    [Sample.submitButton; Sample.cancelButton] Sample.cartEntry [] [] =
  (Return [ValidationResult.mk "Checkout" "cartIcon" "id" "com.app:id/cart"
             true None None],
   [FindElement "id" "com.app:id/cart" true]).
Proof. reflexivity. Qed.

Example submit_entry_is_missing :
  checkEntry Js.asciiToLowerCase Sample.driver
    [Sample.submitButton; Sample.cancelButton] Sample.submitEntry [] [] =
  (Return [ValidationResult.mk "Checkout" "submitButton" "id"
             "com.app:id/missingBtn" false
             (Some [Alternate.mk "id" "com.app:id/submitBtn"
                      "android.widget.Button";
                    Alternate.mk "xpath"
                      "//android.widget.Button[@text='Submit']"
                      "android.widget.Button"])
             (Some "NoSuchElementError: An element could not be located on the page using the given search parameters.")],
   [FindElement "id" "com.app:id/missingBtn" false]).
Proof. reflexivity. Qed.

(** ** The batch *)

Section Batch.

Variable toLowerCase : string -> string.
Variable path_resolve : string -> string.
Variable JSON_parse : string -> Completion JsonValue.
Variable generateAllElementLocators :
  string -> bool -> string -> Completion (list ElementWithLocators.t).

(** C7. Once the driver is there, the locator file has been read and the
    snapshot taken, the call returns whatever the resolutions answer, with
    one result per input entry in the order of the entries; and every call
    that returns a report has passed those three stages. In both cases
    [totalChecked] is the number of entries and [foundCount] plus
    [missingCount] is [totalChecked]. *)
Theorem batch_never_aborts (host : Host) (args : Args) (log : list Event) :
  (forall driver userLocators log1 allCurrentPageElements log2,
     getDriver host = Some driver ->
     readUserLocators path_resolve JSON_parse host args log =
       (Return userLocators, log1) ->
     captureSnapshot toLowerCase generateAllElementLocators driver log1 =
       (Return allCurrentPageElements, log2) ->
     exists results log3,
       execute toLowerCase path_resolve JSON_parse
         generateAllElementLocators host args log =
         (Return (buildReport results), log3) /\
       Forall2 (ResultFor toLowerCase allCurrentPageElements)
               userLocators results /\
       List.length results = List.length userLocators /\
       Report.totalChecked (buildReport results) =
         List.length userLocators /\
       Report.foundCount (buildReport results) +
       Report.missingCount (buildReport results) =
         Report.totalChecked (buildReport results)) /\
  (forall report log3,
     execute toLowerCase path_resolve JSON_parse generateAllElementLocators
       host args log = (Return report, log3) ->
     exists userLocators allCurrentPageElements results,
       fst (readUserLocators path_resolve JSON_parse host args log) =
         Return userLocators /\
       report = buildReport results /\
       Forall2 (ResultFor toLowerCase allCurrentPageElements)
               userLocators results /\
       List.length results = List.length userLocators /\
       Report.totalChecked report = List.length userLocators /\
       Report.foundCount report + Report.missingCount report =
         Report.totalChecked report /\
       List.length (Report.foundLocators report) +
       List.length (Report.missingLocators report) =
         List.length userLocators).
Proof.
  split.
  - intros driver userLocators log1 allCurrentPageElements log2
      Hdriver Hread Hsnap.
    rewrite (execute_stages _ _ _ _ host args log driver Hdriver).
    rewrite Hread, Hsnap.
    destruct (checkEach_spec toLowerCase driver allCurrentPageElements
                userLocators [] log2)
      as [results [finds [Hloop [Hall [_ _]]]]].
    simpl in Hloop. rewrite Hloop. exists results, (log2 ++ finds).
    pose proof (Forall2_length Hall) as Hlen.
    destruct (buildReport_counts results) as [Htotal [Hsum _]].
    repeat split; try assumption; try congruence.
  - intros report log3 Hrun.
    destruct (getDriver host) as [driver |] eqn:Hdriver.
    + rewrite (execute_stages _ _ _ _ host args log driver Hdriver) in Hrun.
      destruct (readUserLocators path_resolve JSON_parse host args log)
        as [[userLocators | e] log1]; [| discriminate].
      destruct (captureSnapshot toLowerCase generateAllElementLocators
                  driver log1)
        as [[allCurrentPageElements | e] log2]; [| discriminate].
      destruct (checkEach_spec toLowerCase driver allCurrentPageElements
                  userLocators [] log2)
        as [results [finds [Hloop [Hall [_ _]]]]].
      simpl in Hloop. rewrite Hloop in Hrun. injection Hrun as <- _.
      exists userLocators, allCurrentPageElements, results.
      pose proof (Forall2_length Hall) as Hlen.
      destruct (buildReport_counts results)
        as [Htotal [Hsum [Hfound Hmissing]]].
      repeat split; try assumption; congruence.
    + unfold execute in Hrun. rewrite Hdriver in Hrun. discriminate.
Qed.

End Batch.

Lemma batch_never_aborts_witness :
  exists results log3,
    execute Js.asciiToLowerCase Sample.path_resolve Sample.JSON_parse
      Sample.generateAllElementLocators Sample.host Sample.args [] =
      (Return (buildReport results), log3) /\
    Forall2 (ResultFor Js.asciiToLowerCase
               [Sample.submitButton; Sample.cancelButton])
            [Sample.cartEntry; Sample.submitEntry] results /\
    List.length results = 2 /\
    Report.totalChecked (buildReport results) = 2 /\
    Report.foundCount (buildReport results) +
    Report.missingCount (buildReport results) =
      Report.totalChecked (buildReport results).
Proof.
  apply (proj1 (batch_never_aborts Js.asciiToLowerCase Sample.path_resolve
                  Sample.JSON_parse Sample.generateAllElementLocators
                  Sample.host Sample.args [])
           Sample.driver [Sample.cartEntry; Sample.submitEntry] []
           [Sample.submitButton; Sample.cancelButton]
           [GetPageSource; AutomationName]);
    reflexivity.
Defined.

(** ** Failing before the session is touched *)

(** C8. When the locator file is missing, its content does not parse, or
    the parsed value is not an array, the call throws, no report is
    returned, and the log of session interactions is left as it was: no
    page source is read and no element is resolved. *)
Theorem unfit_locator_file_fails_fast (toLowerCase : string -> string)
  (path_resolve : string -> string)
  (JSON_parse : string -> Completion JsonValue)
  (generateAllElementLocators :
     string -> bool -> string -> Completion (list ElementWithLocators.t))
  (host : Host) (args : Args) (log : list Event) :
  LocatorFileMissing path_resolve host args \/
  LocatorFileUnparsable path_resolve JSON_parse host args \/
  LocatorFileNotArray path_resolve JSON_parse host args ->
  exists e,
    execute toLowerCase path_resolve JSON_parse generateAllElementLocators
      host args log = (Throw e, log).
Proof.
  intros Hunfit.
  destruct (readUserLocators_unfit path_resolve JSON_parse host args log
              Hunfit) as [e Hread].
  destruct (getDriver host) as [driver |] eqn:Hdriver.
  - rewrite (execute_stages _ _ _ _ host args log driver Hdriver), Hread.
    eexists. reflexivity.
  - unfold execute. rewrite Hdriver. eexists. reflexivity.
Qed.

Lemma unfit_locator_file_fails_fast_witness :
  exists e,
    execute Js.asciiToLowerCase Sample.path_resolve Sample.JSON_parse
      Sample.generateAllElementLocators Sample.hostWithoutFile Sample.args
      [] = (Throw e, []).
Proof.
  apply (unfit_locator_file_fails_fast Js.asciiToLowerCase
           Sample.path_resolve Sample.JSON_parse
           Sample.generateAllElementLocators Sample.hostWithoutFile
           Sample.args []).
  left. reflexivity.
Defined.

(** The error a missing file is reported with. *)
Example missing_file_message :
  run Js.asciiToLowerCase Sample.path_resolve Sample.JSON_parse
    Sample.generateAllElementLocators Sample.hostWithoutFile Sample.args =
  (Throw (Js.newError
            "Failed to check locators: Locator file not found: /work/locators.json"),
   []).
Proof. reflexivity. Qed.

(** ** When the snapshot is taken *)

Lemma no_snapshot_among_finds (finds : list Event) :
  forallb isFindElement finds = true ->
  List.filter isGetPageSource finds = [].
Proof.
  induction finds as [| ev finds IH]; simpl; [reflexivity |].
  intros H. apply andb_true_iff in H. destruct H as [Hev Hrest].
  destruct ev; simpl in *; try discriminate. now apply IH.
Qed.

Section Snapshot.

Variable toLowerCase : string -> string.
Variable path_resolve : string -> string.
Variable JSON_parse : string -> Completion JsonValue.
Variable generateAllElementLocators :
  string -> bool -> string -> Completion (list ElementWithLocators.t).

(** The interactions of one run: none, or the page-source read alone, or
    the page-source read, the driver-name read and then only resolutions. *)
Lemma run_log_shape (host : Host) (args : Args) :
  snd (run toLowerCase path_resolve JSON_parse generateAllElementLocators
         host args) = [] \/
  snd (run toLowerCase path_resolve JSON_parse generateAllElementLocators
         host args) = [GetPageSource] \/
  exists finds,
    snd (run toLowerCase path_resolve JSON_parse generateAllElementLocators
           host args) = GetPageSource :: AutomationName :: finds /\
    forallb isFindElement finds = true.
Proof.
  unfold run. destruct (getDriver host) as [driver |] eqn:Hdriver.
  - rewrite (execute_stages _ _ _ _ host args [] driver Hdriver).
    pose proof (readUserLocators_log path_resolve JSON_parse host args [])
      as Hlog1.
    destruct (readUserLocators path_resolve JSON_parse host args [])
      as [[userLocators | e] log1]; simpl in Hlog1; subst log1;
      [| now left].
    pose proof (captureSnapshot_log toLowerCase generateAllElementLocators
                  driver []) as Hlog2.
    destruct (captureSnapshot toLowerCase generateAllElementLocators driver
                []) as [[allCurrentPageElements | e] log2] eqn:Hsnap;
      simpl in Hlog2.
    + apply captureSnapshot_returns in Hsnap. simpl in Hsnap. subst log2.
      destruct (checkEach_spec toLowerCase driver allCurrentPageElements
                  userLocators [] [GetPageSource; AutomationName])
        as [results [finds [Hloop [_ [Hfinds _]]]]].
      rewrite Hloop. right; right. now exists finds.
    + destruct Hlog2 as [-> | ->]; [right; now left |].
      right; right. now exists [].
  - unfold execute. rewrite Hdriver. now left.
Qed.

(** C9, as the code has it. In one run the snapshot is taken at most once;
    it is taken up front, as soon as the locator file has been read and
    before any entry is resolved, whether or not a resolution fails later;
    after it the run only resolves entries, so that no entry, resolved or
    not, causes a further snapshot. A run that returns a report has taken
    the snapshot once and made one resolution per entry. *)
Theorem snapshot_once_up_front (host : Host) (args : Args) :
  snapshotCount
    (snd (run toLowerCase path_resolve JSON_parse
            generateAllElementLocators host args)) <= 1 /\
  (snd (run toLowerCase path_resolve JSON_parse generateAllElementLocators
          host args) = [] \/
   snd (run toLowerCase path_resolve JSON_parse generateAllElementLocators
          host args) = [GetPageSource] \/
   exists finds,
     snd (run toLowerCase path_resolve JSON_parse
            generateAllElementLocators host args) =
       GetPageSource :: AutomationName :: finds /\
     forallb isFindElement finds = true) /\
  (forall driver userLocators,
     getDriver host = Some driver ->
     fst (readUserLocators path_resolve JSON_parse host args []) =
       Return userLocators ->
     exists rest,
       snd (run toLowerCase path_resolve JSON_parse
              generateAllElementLocators host args) =
       GetPageSource :: rest) /\
  (forall report,
     fst (run toLowerCase path_resolve JSON_parse
            generateAllElementLocators host args) = Return report ->
     exists finds,
       snd (run toLowerCase path_resolve JSON_parse
              generateAllElementLocators host args) =
         GetPageSource :: AutomationName :: finds /\
       forallb isFindElement finds = true /\
       List.length finds = Report.totalChecked report).
Proof.
  split.
  { destruct (run_log_shape host args) as [-> | [-> | [finds [-> Hfinds]]]];
      unfold snapshotCount; simpl; try lia.
    rewrite (no_snapshot_among_finds finds Hfinds). simpl. lia. }
  split; [apply run_log_shape |].
  split.
  - intros driver userLocators Hdriver Hread. unfold run.
    rewrite (execute_stages _ _ _ _ host args [] driver Hdriver).
    pose proof (readUserLocators_log path_resolve JSON_parse host args [])
      as Hlog1.
    destruct (readUserLocators path_resolve JSON_parse host args [])
      as [[userLocators' | e] log1]; simpl in Hlog1, Hread; subst log1;
      [| discriminate].
    pose proof (captureSnapshot_log toLowerCase generateAllElementLocators
                  driver []) as Hlog2.
    destruct (captureSnapshot toLowerCase generateAllElementLocators driver
                []) as [[allCurrentPageElements | e] log2] eqn:Hsnap;
      simpl in Hlog2.
    + apply captureSnapshot_returns in Hsnap. simpl in Hsnap. subst log2.
      destruct (checkEach_spec toLowerCase driver allCurrentPageElements
                  userLocators' [] [GetPageSource; AutomationName])
        as [results [finds [Hloop _]]].
      rewrite Hloop. simpl. now eexists.
    + destruct Hlog2 as [-> | ->]; simpl; now eexists.
  - intros report Hreport. unfold run in *.
    destruct (getDriver host) as [driver |] eqn:Hdriver.
    + rewrite (execute_stages _ _ _ _ host args [] driver Hdriver) in *.
      pose proof (readUserLocators_log path_resolve JSON_parse host args [])
        as Hlog1.
      destruct (readUserLocators path_resolve JSON_parse host args [])
        as [[userLocators | e] log1]; simpl in Hlog1; subst log1;
        [| discriminate].
      destruct (captureSnapshot toLowerCase generateAllElementLocators
                  driver []) as [[allCurrentPageElements | e] log2] eqn:Hsnap;
        [| discriminate].
      apply captureSnapshot_returns in Hsnap. simpl in Hsnap. subst log2.
      destruct (checkEach_spec toLowerCase driver allCurrentPageElements
                  userLocators [] [GetPageSource; AutomationName])
        as [results [finds [Hloop [Hall [Hfinds Hlen]]]]].
      rewrite Hloop in *. simpl in Hreport. injection Hreport as <-.
      exists finds. simpl. repeat split; try assumption.
      rewrite Hlen. apply (Forall2_length Hall).
    + unfold execute in Hreport. rewrite Hdriver in Hreport. discriminate.
Qed.

End Snapshot.

(** C9 as stated fails: a run whose only entry resolves reads the page
    source all the same, before any resolution and with none failing. *)
Lemma snapshot_taken_without_failure :
  ~ CapturedOnlyAfterFailure
      (snd (run Js.asciiToLowerCase Sample.path_resolve
              Sample.JSON_parse_cart Sample.generateAllElementLocators
              Sample.host Sample.args)).
Proof.
  intros H. destruct (H 0 eq_refl) as [j [strategy [selector [Hlt _]]]].
  lia.
Qed.

Example run_with_resolving_entry :
  snd (run Js.asciiToLowerCase Sample.path_resolve Sample.JSON_parse_cart
         Sample.generateAllElementLocators Sample.host Sample.args) =
  [GetPageSource; AutomationName; FindElement "id" "com.app:id/cart" true].
Proof. reflexivity. Qed.

(** * Further properties of the alternate search *)

Lemma firstSeen_app (seen l1 l2 : list Alternate.t) :
  firstSeen seen (l1 ++ l2) = firstSeen seen l1 ++ firstSeen (seen ++ l1) l2.
Proof.
  revert seen. induction l1 as [| x l1 IH]; intros seen; simpl.
  - now rewrite app_nil_r.
  - rewrite IH, <- app_assoc. simpl.
    destruct (existsb (sameKey x) seen); reflexivity.
Qed.

(** A list without two items of one key, none of them seen before, is left
    as it is. *)
Lemma firstSeen_distinct (seen l : list Alternate.t) :
  NoDup (map Alternate.key l) ->
  (forall x, In x l -> existsb (sameKey x) seen = false) ->
  firstSeen seen l = l.
Proof.
  revert seen. induction l as [| x l IH]; intros seen Hnodup Hfresh; simpl.
  - reflexivity.
  - rewrite (Hfresh x (or_introl eq_refl)).
    inversion Hnodup as [| k ks Hnotin Hrest]; subst.
    f_equal. apply IH; [exact Hrest |].
    intros y Hy. rewrite existsb_app, (Hfresh y (or_intror Hy)). simpl.
    rewrite orb_false_r.
    destruct (sameKey y x) eqn:E; [| reflexivity].
    apply sameKey_spec in E. exfalso. apply Hnotin. rewrite E.
    now apply in_map.
Qed.

Lemma firstSeen_head (x : Alternate.t) (l : list Alternate.t) :
  firstSeen [] (x :: l) = x :: firstSeen [x] l.
Proof. reflexivity. Qed.

Section SearchFurther.

Variable toLowerCase : string -> string.

(** Where a collected alternate comes from. *)
Lemma collected_origin (userLocator : UserLocatorEntry.t)
  (allCurrentPageElements : list ElementWithLocators.t) (a : Alternate.t) :
  In a (collectAlternates toLowerCase userLocator allCurrentPageElements) <->
  exists element entry,
    In element allCurrentPageElements /\
    In entry (ElementWithLocators.locators element) /\
    a = mkAlternate element entry /\
    (textMatches toLowerCase userLocator element = true \/
     exactMatches userLocator element = true /\
     otherStrategy userLocator entry = true).
Proof.
  rewrite collectAlternates_flat_map, in_flat_map. split.
  - intros [element [Hel Ha]]. rewrite emitted_split in Ha.
    apply in_app_or in Ha. destruct Ha as [Ha | Ha].
    + rewrite textEmitted_spec in Ha.
      destruct (textMatches toLowerCase userLocator element) eqn:E;
        [| destruct Ha].
      apply in_map_iff in Ha. destruct Ha as [entry [<- Hentry]].
      exists element, entry. repeat split; try assumption. now left.
    + apply exactEmitted_In in Ha.
      destruct Ha as [Hexact [entry [Hentry [Hother ->]]]].
      exists element, entry. repeat split; try assumption. now right.
  - intros [element [entry [Hel [Hentry [-> Hwhy]]]]].
    exists element. split; [exact Hel |].
    rewrite emitted_split. apply in_or_app.
    destruct Hwhy as [Htext | [Hexact Hother]].
    + left. rewrite textEmitted_spec, Htext. now apply in_map.
    + right. apply exactEmitted_In. split; [exact Hexact |].
      now exists entry.
Qed.

Lemma returned_is_collected (userLocator : UserLocatorEntry.t)
  (allCurrentPageElements : list ElementWithLocators.t) (a : Alternate.t) :
  In a (findAlternateLocators toLowerCase userLocator
          allCurrentPageElements) ->
  In a (collectAlternates toLowerCase userLocator allCurrentPageElements).
Proof.
  unfold findAlternateLocators. rewrite slice_0, uniqueAlternates_firstSeen.
  intros Ha. apply In_firstn, firstSeen_In in Ha.
  destruct Ha as [before [after [-> _]]].
  apply in_or_app. right. now left.
Qed.

Lemma returned_head (userLocator : UserLocatorEntry.t)
  (allCurrentPageElements : list ElementWithLocators.t) (x : Alternate.t)
  (rest : list Alternate.t) :
  collectAlternates toLowerCase userLocator allCurrentPageElements =
    x :: rest ->
  exists tail,
    findAlternateLocators toLowerCase userLocator allCurrentPageElements =
    x :: tail.
Proof.
  intros H. unfold findAlternateLocators.
  rewrite slice_0, uniqueAlternates_firstSeen, H, firstSeen_head. simpl.
  now eexists.
Qed.

End SearchFurther.

(** X1. Every returned alternate is a candidate of an Element Node of the
    snapshot, with that node's strategy, selector and [tagName], and the
    node either matched by text or carries the user's selector under some
    entry while the candidate is under another strategy than the tried
    one. Nothing is returned that the snapshot does not hold. *)
Theorem returned_alternates_are_candidates (toLowerCase : string -> string)
  (userLocator : UserLocatorEntry.t)
  (allCurrentPageElements : list ElementWithLocators.t) (a : Alternate.t) :
  In a (findAlternateLocators toLowerCase userLocator
          allCurrentPageElements) ->
  exists element entry,
    In element allCurrentPageElements /\
    In entry (ElementWithLocators.locators element) /\
    Alternate.strategy a = fst entry /\
    Alternate.selector a = snd entry /\
    Alternate.tagName a = ElementWithLocators.tagName element /\
    (textMatches toLowerCase userLocator element = true \/
     exactMatches userLocator element = true /\
     otherStrategy userLocator entry = true).
Proof.
  intros Ha. apply returned_is_collected, collected_origin in Ha.
  destruct Ha as [element [entry [Hel [Hentry [-> Hwhy]]]]].
  exists element, entry. repeat split; assumption.
Qed.

Lemma returned_alternates_are_candidates_witness :
  exists element entry,
    In element [Sample.submitButton; Sample.cancelButton] /\
    In entry (ElementWithLocators.locators element) /\
    "xpath" = fst entry /\
    "//android.widget.Button[@text='Submit']" = snd entry /\
    "android.widget.Button" = ElementWithLocators.tagName element /\
    (textMatches Js.asciiToLowerCase Sample.submitEntry element = true \/
     exactMatches Sample.submitEntry element = true /\
     otherStrategy Sample.submitEntry entry = true).
Proof.
  apply (returned_alternates_are_candidates Js.asciiToLowerCase
           Sample.submitEntry [Sample.submitButton; Sample.cancelButton]
           (Alternate.mk "xpath" "//android.widget.Button[@text='Submit']"
              "android.widget.Button")).
  vm_compute. right; left. reflexivity.
Defined.

(** X2. Alternates are returned exactly when some Element Node of the
    snapshot has a candidate to offer: a node that matches by text and has
    at least one candidate, or a node that carries the user's selector and
    has a candidate under another strategy than the tried one. *)
Theorem alternates_nonempty_iff (toLowerCase : string -> string)
  (userLocator : UserLocatorEntry.t)
  (allCurrentPageElements : list ElementWithLocators.t) :
  findAlternateLocators toLowerCase userLocator allCurrentPageElements <> []
  <->
  exists element entry,
    In element allCurrentPageElements /\
    In entry (ElementWithLocators.locators element) /\
    (textMatches toLowerCase userLocator element = true \/
     exactMatches userLocator element = true /\
     otherStrategy userLocator entry = true).
Proof.
  split.
  - intros Hne.
    destruct (findAlternateLocators toLowerCase userLocator
                allCurrentPageElements) as [| a tail] eqn:E;
      [now elim Hne |].
    assert (Ha : In a (findAlternateLocators toLowerCase userLocator
                         allCurrentPageElements)).
    { rewrite E. now left. }
    apply returned_is_collected, collected_origin in Ha.
    destruct Ha as [element [entry [Hel [Hentry [_ Hwhy]]]]].
    now exists element, entry.
  - intros [element [entry [Hel [Hentry Hwhy]]]].
    assert (Hin : In (mkAlternate element entry)
                     (collectAlternates toLowerCase userLocator
                        allCurrentPageElements)).
    { apply collected_origin. now exists element, entry. }
    destruct (collectAlternates toLowerCase userLocator
                allCurrentPageElements) as [| x rest] eqn:E;
      [destruct Hin |].
    destruct (returned_head toLowerCase userLocator allCurrentPageElements
                x rest E) as [tail ->].
    discriminate.
Qed.

(** X3. Removing duplicates twice is removing them once, and a list in
    which no two items share strategy and selector is returned as it is. *)
Theorem uniqueAlternates_idempotent (alternates : list Alternate.t) :
  uniqueAlternates (uniqueAlternates alternates) =
    uniqueAlternates alternates /\
  (NoDup (map Alternate.key alternates) ->
   uniqueAlternates alternates = alternates).
Proof.
  assert (Hfix : forall l, NoDup (map Alternate.key l) ->
                           uniqueAlternates l = l).
  { intros l Hl. rewrite uniqueAlternates_firstSeen.
    apply firstSeen_distinct; [exact Hl | reflexivity]. }
  split; [| apply Hfix].
  apply Hfix. rewrite uniqueAlternates_firstSeen. apply firstSeen_NoDup.
Qed.

(** X4. Elements later in the snapshot never displace alternates found for
    earlier ones: what is returned for a snapshot is an initial segment of
    what is returned for the snapshot with further elements appended, and
    once five alternates are returned, appended elements change nothing. *)
Theorem earlier_elements_take_precedence (toLowerCase : string -> string)
  (userLocator : UserLocatorEntry.t)
  (elements more : list ElementWithLocators.t) :
  Prefix (findAlternateLocators toLowerCase userLocator elements)
         (findAlternateLocators toLowerCase userLocator (elements ++ more)) /\
  (List.length (findAlternateLocators toLowerCase userLocator elements) = 5 ->
   findAlternateLocators toLowerCase userLocator (elements ++ more) =
   findAlternateLocators toLowerCase userLocator elements).
Proof.
  rewrite !findAlternateLocators_spec, flat_map_app, firstSeen_app.
  rewrite firstn_app.
  set (kept := firstSeen [] (flat_map (emitted toLowerCase userLocator)
                               elements)).
  split.
  - now eexists.
  - intros Hfull.
    assert (Hlen : 5 <= List.length kept).
    { rewrite length_firstn in Hfull. lia. }
    replace (5 - List.length kept) with 0 by lia.
    rewrite firstn_O. now rewrite app_nil_r.
Qed.

(** * Further properties of the tool body *)

Lemma resolved_count (userLocators : list UserLocatorEntry.t) :
  forall results : list ValidationResult.t,
  List.length results = List.length userLocators ->
  List.length (List.filter isResolved
                 (resolutionEvents userLocators results)) =
    List.length (List.filter ValidationResult.found results) /\
  List.length (List.filter isFailedResolution
                 (resolutionEvents userLocators results)) =
    List.length (List.filter
                   (fun result => negb (ValidationResult.found result))
                   results).
Proof.
  unfold resolutionEvents.
  induction userLocators as [| u us IH]; intros [| r rs] Hlen;
    simpl in *; try discriminate; [now split |].
  injection Hlen as Hlen. destruct (IH rs Hlen) as [Hres Hfail].
  destruct (ValidationResult.found r); simpl; split; congruence.
Qed.

Lemma resolutionEvents_length (userLocators : list UserLocatorEntry.t)
  (results : list ValidationResult.t) :
  List.length results = List.length userLocators ->
  List.length (resolutionEvents userLocators results) =
  List.length userLocators.
Proof.
  intros H. unfold resolutionEvents.
  rewrite length_map, length_combine. lia.
Qed.

Lemma Forall2_In_r {A B : Type} (R : A -> B -> Prop) (la : list A)
  (lb : list B) (b : B) :
  Forall2 R la lb -> In b lb -> exists a, In a la /\ R a b.
Proof.
  induction 1 as [| x y la lb Hxy Hrest IH]; intros Hin; [destruct Hin |].
  destruct Hin as [-> | Hin].
  - exists x. split; [now left | exact Hxy].
  - destruct (IH Hin) as [a [Ha HR]]. exists a. split; [now right | exact HR].
Qed.

Section RunFurther.

Variable toLowerCase : string -> string.
Variable path_resolve : string -> string.
Variable JSON_parse : string -> Completion JsonValue.
Variable generateAllElementLocators :
  string -> bool -> string -> Completion (list ElementWithLocators.t).

(** The loop with its log spelled out: the resolutions are those of the
    entries, in their order. *)
Lemma checkEach_trace (driver : Driver)
  (allCurrentPageElements : list ElementWithLocators.t)
  (userLocators : list UserLocatorEntry.t) :
  forall (results : list ValidationResult.t) (log : list Event),
  exists added,
    checkEach toLowerCase driver allCurrentPageElements userLocators results
      log =
    (Return (results ++ added),
     log ++ resolutionEvents userLocators added) /\
    Forall2 (ResultFor toLowerCase allCurrentPageElements)
            userLocators added.
Proof.
  induction userLocators as [| userLocator rest IH]; intros results log.
  - exists []. simpl. unfold ret, resolutionEvents. simpl.
    rewrite !app_nil_r. split; [reflexivity | constructor].
  - destruct (checkEntry_step toLowerCase driver allCurrentPageElements
                userLocator results log)
      as [result [Hrun [H1 [H2 [H3 [H4 Hcase]]]]]].
    assert (Hres : ResultFor toLowerCase allCurrentPageElements userLocator
                     result).
    { unfold ResultFor. repeat (split; [assumption |]).
      destruct (findElement driver log
                  (UserLocatorEntry.LocatorStrategy userLocator)
                  (UserLocatorEntry.Locators userLocator)) as [handle | err].
      - now left.
      - right. destruct Hcase as [Hf [Ha He]].
        repeat split; try assumption. now exists err. }
    destruct (IH (results ++ [result])
                 (log ++ [FindElement
                            (UserLocatorEntry.LocatorStrategy userLocator)
                            (UserLocatorEntry.Locators userLocator)
                            (ValidationResult.found result)]))
      as [added [Hloop Hall]].
    exists (result :: added). simpl. unfold bind. rewrite Hrun, Hloop.
    unfold resolutionEvents. simpl. rewrite <- !app_assoc. simpl.
    split; [reflexivity | now constructor].
Qed.

(** A run that passes its three stages, with everything it produces. *)
Lemma execute_returns (host : Host) (args : Args) (log : list Event)
  (driver : Driver) (userLocators : list UserLocatorEntry.t)
  (log1 : list Event) (allCurrentPageElements : list ElementWithLocators.t)
  (log2 : list Event) :
  getDriver host = Some driver ->
  readUserLocators path_resolve JSON_parse host args log =
    (Return userLocators, log1) ->
  captureSnapshot toLowerCase generateAllElementLocators driver log1 =
    (Return allCurrentPageElements, log2) ->
  exists results,
    execute toLowerCase path_resolve JSON_parse generateAllElementLocators
      host args log =
    (Return (buildReport results),
     log ++ [GetPageSource; AutomationName] ++
     resolutionEvents userLocators results) /\
    Forall2 (ResultFor toLowerCase allCurrentPageElements)
            userLocators results.
Proof.
  intros Hdriver Hread Hsnap.
  rewrite (execute_stages _ _ _ _ host args log driver Hdriver).
  rewrite Hread, Hsnap.
  pose proof (readUserLocators_log path_resolve JSON_parse host args log)
    as Hlog1. rewrite Hread in Hlog1. simpl in Hlog1. subst log1.
  apply captureSnapshot_returns in Hsnap. subst log2.
  destruct (checkEach_trace driver allCurrentPageElements userLocators []
              (log ++ [GetPageSource; AutomationName]))
    as [results [Hloop Hall]].
  simpl in Hloop. rewrite Hloop. exists results.
  rewrite <- app_assoc. now split.
Qed.

(** Conversely, a run that returns a report has passed them. *)
Lemma execute_returned (host : Host) (args : Args) (log log' : list Event)
  (report : Report.t) :
  execute toLowerCase path_resolve JSON_parse generateAllElementLocators
    host args log = (Return report, log') ->
  exists driver userLocators allCurrentPageElements,
    getDriver host = Some driver /\
    readUserLocators path_resolve JSON_parse host args log =
      (Return userLocators, log) /\
    captureSnapshot toLowerCase generateAllElementLocators driver log =
      (Return allCurrentPageElements,
       log ++ [GetPageSource; AutomationName]).
Proof.
  intros Hrun. destruct (getDriver host) as [driver |] eqn:Hdriver.
  - rewrite (execute_stages _ _ _ _ host args log driver Hdriver) in Hrun.
    pose proof (readUserLocators_log path_resolve JSON_parse host args log)
      as Hlog1.
    destruct (readUserLocators path_resolve JSON_parse host args log)
      as [[userLocators | e] log1]; [| discriminate].
    simpl in Hlog1. subst log1.
    destruct (captureSnapshot toLowerCase generateAllElementLocators driver
                log) as [[allCurrentPageElements | e] log2] eqn:Hsnap;
      [| discriminate].
    pose proof (captureSnapshot_returns _ _ _ _ _ _ Hsnap) as ->.
    now exists driver, userLocators, allCurrentPageElements.
  - unfold execute in Hrun. rewrite Hdriver in Hrun. discriminate.
Qed.

End RunFurther.

Section RunExtras.

Variable toLowerCase : string -> string.
Variable path_resolve : string -> string.
Variable JSON_parse : string -> Completion JsonValue.
Variable generateAllElementLocators :
  string -> bool -> string -> Completion (list ElementWithLocators.t).

(** X5. Whatever goes wrong, the call throws a plain [Error]: without a
    session it is the no-session error, thrown before the locator file is
    looked at and with the session untouched; with a session the message
    always starts with [Failed to check locators: ]. *)
Theorem thrown_errors_are_wrapped (host : Host) (args : Args)
  (log log' : list Event) (e : Js.Error) :
  execute toLowerCase path_resolve JSON_parse generateAllElementLocators
    host args log = (Throw e, log') ->
  Js.name e = "Error" /\
  ((getDriver host = None /\
    Js.message e =
      "No active driver session. Please create a session first." /\
    log' = log) \/
   (exists driver inner,
      getDriver host = Some driver /\
      Js.message e = ("Failed to check locators: " ++ inner)%string)).
Proof.
  intros Hrun. destruct (getDriver host) as [driver |] eqn:Hdriver.
  - rewrite (execute_stages _ _ _ _ host args log driver Hdriver) in Hrun.
    destruct (readUserLocators path_resolve JSON_parse host args log)
      as [[userLocators | e1] log1].
    + destruct (captureSnapshot toLowerCase generateAllElementLocators
                  driver log1) as [[allCurrentPageElements | e2] log2].
      * destruct (checkEach_spec toLowerCase driver allCurrentPageElements
                    userLocators [] log2) as [added [finds [Hloop _]]].
        rewrite Hloop in Hrun. discriminate.
      * injection Hrun as <- _. split; [reflexivity |].
        right. now exists driver, (Js.message e2).
    + injection Hrun as <- _. split; [reflexivity |].
      right. now exists driver, (Js.message e1).
  - unfold execute in Hrun. rewrite Hdriver in Hrun.
    unfold throw in Hrun. injection Hrun as <- <-.
    split; [reflexivity |]. now left.
Qed.

(** X6. With a session, an unfit locator file is reported by name: a
    missing file with its resolved path, a file that cannot be read or
    parsed with the message of the error that reading or parsing threw,
    and a value that is not an array with the array requirement; the
    session is not touched. *)
Theorem locator_file_error_messages (host : Host) (args : Args)
  (log : list Event) (driver : Driver) :
  getDriver host = Some driver ->
  (existsSync host (path_resolve (locatorFilePath args)) = false ->
   execute toLowerCase path_resolve JSON_parse generateAllElementLocators
     host args log =
   (Throw (Js.newError
             ("Failed to check locators: Locator file not found: " ++
              path_resolve (locatorFilePath args))%string), log)) /\
  (forall e,
     existsSync host (path_resolve (locatorFilePath args)) = true ->
     readFileSync host (path_resolve (locatorFilePath args)) = Throw e ->
     execute toLowerCase path_resolve JSON_parse generateAllElementLocators
       host args log =
     (Throw (Js.newError
               ("Failed to check locators: " ++ Js.message e)%string),
      log)) /\
  (forall fileContent e,
     existsSync host (path_resolve (locatorFilePath args)) = true ->
     readFileSync host (path_resolve (locatorFilePath args)) =
       Return fileContent ->
     JSON_parse fileContent = Throw e ->
     execute toLowerCase path_resolve JSON_parse generateAllElementLocators
       host args log =
     (Throw (Js.newError
               ("Failed to check locators: " ++ Js.message e)%string),
      log)) /\
  (forall fileContent,
     existsSync host (path_resolve (locatorFilePath args)) = true ->
     readFileSync host (path_resolve (locatorFilePath args)) =
       Return fileContent ->
     JSON_parse fileContent = Return JsonOther ->
     execute toLowerCase path_resolve JSON_parse generateAllElementLocators
       host args log =
     (Throw (Js.newError
               "Failed to check locators: Locator file must contain an array of locator objects"),
      log)).
Proof.
  intros Hdriver.
  rewrite (execute_stages _ _ _ _ host args log driver Hdriver).
  unfold readUserLocators; unfold_M.
  split; [| split; [| split]].
  - intros ->. reflexivity.
  - intros e -> ->. reflexivity.
  - intros fileContent e -> -> ->. reflexivity.
  - intros fileContent -> -> ->. reflexivity.
Qed.

(** X7. When the snapshot cannot be taken, because the page source cannot
    be read, the session has no automation name, or the locator generation
    throws, the call throws and no entry is resolved: the log ends with
    the page-source read, followed at most by the driver-name read. *)
Theorem snapshot_failure_resolves_nothing (host : Host) (args : Args)
  (log : list Event) (driver : Driver)
  (userLocators : list UserLocatorEntry.t) :
  getDriver host = Some driver ->
  readUserLocators path_resolve JSON_parse host args log =
    (Return userLocators, log) ->
  (forall e,
     getPageSource driver log = Throw e ->
     execute toLowerCase path_resolve JSON_parse generateAllElementLocators
       host args log =
     (Throw (Js.newError
               ("Failed to check locators: " ++ Js.message e)%string),
      log ++ [GetPageSource])) /\
  (forall pageSource,
     getPageSource driver log = Return pageSource ->
     automationName driver (log ++ [GetPageSource]) = None ->
     exists e,
       execute toLowerCase path_resolve JSON_parse
         generateAllElementLocators host args log =
       (Throw e, log ++ [GetPageSource; AutomationName])) /\
  (forall pageSource name e,
     getPageSource driver log = Return pageSource ->
     automationName driver (log ++ [GetPageSource]) = Some name ->
     generateAllElementLocators pageSource true (toLowerCase name) =
       Throw e ->
     execute toLowerCase path_resolve JSON_parse generateAllElementLocators
       host args log =
     (Throw (Js.newError
               ("Failed to check locators: " ++ Js.message e)%string),
      log ++ [GetPageSource; AutomationName])).
Proof.
  intros Hdriver Hread.
  rewrite (execute_stages _ _ _ _ host args log driver Hdriver), Hread.
  unfold captureSnapshot, readDriverName, callGetPageSource,
    readAutomationName; unfold_M.
  split; [| split].
  - intros e ->. reflexivity.
  - intros pageSource -> ->. rewrite <- app_assoc. eexists. reflexivity.
  - intros pageSource name e -> -> ->. rewrite <- app_assoc. reflexivity.
Qed.

(** X8. An empty locator array is not an error: the snapshot is taken all
    the same, no element is resolved, and the report counts nothing. *)
Theorem empty_locator_file_report (host : Host) (args : Args)
  (log : list Event) (driver : Driver)
  (allCurrentPageElements : list ElementWithLocators.t)
  (log2 : list Event) :
  getDriver host = Some driver ->
  readUserLocators path_resolve JSON_parse host args log = (Return [], log) ->
  captureSnapshot toLowerCase generateAllElementLocators driver log =
    (Return allCurrentPageElements, log2) ->
  execute toLowerCase path_resolve JSON_parse generateAllElementLocators
    host args log =
  (Return (Report.mk 0 0 0 [] [] "Checked 0 locators: 0 found, 0 missing"),
   log ++ [GetPageSource; AutomationName]).
Proof.
  intros Hdriver Hread Hsnap.
  rewrite (execute_stages _ _ _ _ host args log driver Hdriver).
  rewrite Hread, Hsnap.
  apply captureSnapshot_returns in Hsnap. subst log2. reflexivity.
Qed.

(** X9. A run that returns a report has read the page source and the
    driver name once and then resolved the entries one after the other in
    the order of the file, each once, under its own strategy and selector;
    [foundCount] is the number of resolutions that succeeded and
    [missingCount] the number of those that failed. *)
Theorem resolutions_follow_entries (host : Host) (args : Args)
  (log log' : list Event) (report : Report.t) :
  execute toLowerCase path_resolve JSON_parse generateAllElementLocators
    host args log = (Return report, log') ->
  exists userLocators results,
    fst (readUserLocators path_resolve JSON_parse host args log) =
      Return userLocators /\
    report = buildReport results /\
    List.length results = List.length userLocators /\
    log' = log ++ [GetPageSource; AutomationName] ++
           resolutionEvents userLocators results /\
    map (fun ev => match ev with
                   | FindElement strategy selector _ => (strategy, selector)
                   | _ => (""%string, ""%string)
                   end)
        (resolutionEvents userLocators results) =
      map (fun u => (UserLocatorEntry.LocatorStrategy u,
                     UserLocatorEntry.Locators u)) userLocators /\
    Report.foundCount report =
      List.length (List.filter isResolved
                     (resolutionEvents userLocators results)) /\
    Report.missingCount report =
      List.length (List.filter isFailedResolution
                     (resolutionEvents userLocators results)).
Proof.
  intros Hrun.
  destruct (execute_returned toLowerCase path_resolve JSON_parse
              generateAllElementLocators host args log log' report Hrun)
    as [driver [userLocators [allCurrentPageElements
                                [Hdriver [Hread Hsnap]]]]].
  destruct (execute_returns toLowerCase path_resolve JSON_parse
              generateAllElementLocators host args log driver userLocators
              log allCurrentPageElements _ Hdriver Hread Hsnap)
    as [results [Hrun' Hall]].
  rewrite Hrun' in Hrun. injection Hrun as <- <-.
  pose proof (Forall2_length Hall) as Hlen. symmetry in Hlen.
  destruct (resolved_count userLocators results Hlen) as [Hres Hfail].
  exists userLocators, results. rewrite Hread. simpl.
  repeat split; try assumption; try (symmetry; assumption).
  clear - Hlen. unfold resolutionEvents. rewrite map_map. simpl.
  revert results Hlen.
  induction userLocators as [| u us IH]; intros [| r rs] Hlen;
    simpl in *; try discriminate; [reflexivity |].
  injection Hlen as Hlen. f_equal. now apply IH.
Qed.


End RunExtras.

Lemma thrown_errors_are_wrapped_witness :
  Js.name
    (Js.newError "No active driver session. Please create a session first.")
    = "Error" /\
  ((getDriver Scenario.idleHost = None /\
    Js.message
      (Js.newError "No active driver session. Please create a session first.")
      = "No active driver session. Please create a session first." /\
    @nil Event = []) \/
   (exists driver inner,
      getDriver Scenario.idleHost = Some driver /\
      Js.message
        (Js.newError
           "No active driver session. Please create a session first.")
        = ("Failed to check locators: " ++ inner)%string)).
Proof.
  apply (thrown_errors_are_wrapped Js.asciiToLowerCase Sample.path_resolve
           Sample.JSON_parse Sample.generateAllElementLocators
           Scenario.idleHost Sample.args [] []).
  reflexivity.
Defined.

Lemma locator_file_error_messages_witness :
  execute Js.asciiToLowerCase Sample.path_resolve Sample.JSON_parse
    Sample.generateAllElementLocators Sample.hostWithoutFile Sample.args []
  = (Throw (Js.newError
              "Failed to check locators: Locator file not found: /work/locators.json"),
     []).
Proof.
  apply (proj1 (locator_file_error_messages Js.asciiToLowerCase
                  Sample.path_resolve Sample.JSON_parse
                  Sample.generateAllElementLocators Sample.hostWithoutFile
                  Sample.args [] Sample.driver eq_refl)).
  reflexivity.
Defined.

Lemma snapshot_failure_resolves_nothing_witness :
  execute Js.asciiToLowerCase Sample.path_resolve Sample.JSON_parse
    Sample.generateAllElementLocators Scenario.staleHost Sample.args []
  = (Throw (Js.newError "Failed to check locators: socket hang up"),
     [GetPageSource]).
Proof.
  apply (proj1 (snapshot_failure_resolves_nothing Js.asciiToLowerCase
                  Sample.path_resolve Sample.JSON_parse
                  Sample.generateAllElementLocators Scenario.staleHost
                  Sample.args [] Scenario.staleDriver
                  [Sample.cartEntry; Sample.submitEntry]
                  eq_refl eq_refl)
           (Js.mkError "WebDriverError" "socket hang up")).
  reflexivity.
Defined.

Lemma empty_locator_file_report_witness :
  execute Js.asciiToLowerCase Sample.path_resolve Scenario.JSON_parse_empty
    Sample.generateAllElementLocators Sample.host Sample.args []
  = (Return (Report.mk 0 0 0 [] [] "Checked 0 locators: 0 found, 0 missing"),
     [GetPageSource; AutomationName]).
Proof.
  apply (empty_locator_file_report Js.asciiToLowerCase Sample.path_resolve
           Scenario.JSON_parse_empty Sample.generateAllElementLocators
           Sample.host Sample.args [] Sample.driver
           [Sample.submitButton; Sample.cancelButton]
           [GetPageSource; AutomationName]);
    reflexivity.
Defined.

Lemma resolutions_follow_entries_witness :
  exists userLocators results,
    fst (readUserLocators Sample.path_resolve Sample.JSON_parse Sample.host
           Sample.args []) = Return userLocators /\
    buildReport Scenario.checkedResults = buildReport results /\
    List.length results = List.length userLocators /\
    Scenario.checkedLog =
      [] ++ [GetPageSource; AutomationName] ++
      resolutionEvents userLocators results /\
    map (fun ev => match ev with
                   | FindElement strategy selector _ => (strategy, selector)
                   | _ => (""%string, ""%string)
                   end)
        (resolutionEvents userLocators results) =
      map (fun u => (UserLocatorEntry.LocatorStrategy u,
                     UserLocatorEntry.Locators u)) userLocators /\
    Report.foundCount (buildReport Scenario.checkedResults) =
      List.length (List.filter isResolved
                     (resolutionEvents userLocators results)) /\
    Report.missingCount (buildReport Scenario.checkedResults) =
      List.length (List.filter isFailedResolution
                     (resolutionEvents userLocators results)).
Proof.
  apply (resolutions_follow_entries Js.asciiToLowerCase Sample.path_resolve
           Sample.JSON_parse Sample.generateAllElementLocators Sample.host
           Sample.args [] Scenario.checkedLog
           (buildReport Scenario.checkedResults)).
  reflexivity.
Defined.


(** * The helpers of the order tool *)

Lemma find_first {A : Type} (p : A -> bool) (l : list A) (x : A) :
  List.find p l = Some x ->
  exists before after,
    l = before ++ x :: after /\
    (forall y, In y before -> p y = false) /\
    p x = true.
Proof.
  induction l as [| y l IH]; simpl; [discriminate |].
  destruct (p y) eqn:E.
  - intros H. injection H as ->. exists [], l.
    repeat split; [intros z [] | exact E].
  - intros H. destruct (IH H) as [before [after [-> [Hbefore Hx]]]].
    exists (y :: before), after. repeat split; [| exact Hx].
    intros z [<- | Hz]; [exact E | now apply Hbefore].
Qed.

Lemma find_nothing {A : Type} (p : A -> bool) (l : list A) :
  (forall y, In y l -> p y = false) -> List.find p l = None.
Proof.
  induction l as [| y l IH]; simpl; [reflexivity |].
  intros H. rewrite (H y (or_introl eq_refl)). apply IH.
  intros z Hz. apply H. now right.
Qed.

Lemma includes_refl (s : string) : Js.includes s s = true.
Proof.
  apply includes_spec. exists ""%string, ""%string. simpl.
  induction s as [| c s IH]; simpl; [reflexivity | now rewrite <- IH].
Qed.

Lemma property_In (locators : list (string * string)) (key value : string) :
  PlaceStockOrder.property locators key = Some value ->
  In (key, value) locators.
Proof.
  unfold PlaceStockOrder.property.
  destruct (List.find (fun entry => String.eqb (fst entry) key) locators)
    as [entry |] eqn:E; [| discriminate].
  intros H. injection H as <-. apply find_some in E.
  destruct E as [Hin Hkey]. apply String.eqb_eq in Hkey. subst key.
  now destruct entry.
Qed.

Lemma property_nil (key : string) : PlaceStockOrder.property [] key = None.
Proof. reflexivity. Qed.

(** The loop stops at the first usable key, with that key's selector. *)
Lemma pickPreferred_first (locators : list (string * string))
  (keys : list string) (locator : PlaceStockOrder.Locator) :
  PlaceStockOrder.pickPreferred locators keys = Some locator ->
  exists before after,
    keys = before ++ PlaceStockOrder.strategy locator :: after /\
    (forall key, In key before -> PlaceStockOrder.usable locators key = false)
    /\
    PlaceStockOrder.property locators (PlaceStockOrder.strategy locator) =
      Some (PlaceStockOrder.selector locator) /\
    PlaceStockOrder.selector locator <> "".
Proof.
  induction keys as [| key keys IH]; simpl; [discriminate |].
  destruct (PlaceStockOrder.property locators key) as [value |] eqn:E.
  - destruct (Js.truthy value) eqn:T.
    + intros H. injection H as <-. exists [], keys. simpl.
      repeat split; [intros k [] | exact E | now apply truthy_nonempty].
    + intros H. destruct (IH H) as [before [after [-> [Hb [Hp Hs]]]]].
      exists (key :: before), after. repeat split; try assumption.
      intros k [<- | Hk]; [| now apply Hb].
      unfold PlaceStockOrder.usable. now rewrite E.
  - intros H. destruct (IH H) as [before [after [-> [Hb [Hp Hs]]]]].
    exists (key :: before), after. repeat split; try assumption.
    intros k [<- | Hk]; [| now apply Hb].
    unfold PlaceStockOrder.usable. now rewrite E.
Qed.

Lemma pickPreferred_none (locators : list (string * string))
  (keys : list string) :
  PlaceStockOrder.pickPreferred locators keys = None <->
  forall key, In key keys -> PlaceStockOrder.usable locators key = false.
Proof.
  unfold PlaceStockOrder.usable.
  induction keys as [| key keys IH]; simpl.
  - split; [intros _ k [] | reflexivity].
  - destruct (PlaceStockOrder.property locators key) as [value |] eqn:E.
    + destruct (Js.truthy value) eqn:T.
      * split; [discriminate |]. intros H.
        specialize (H key (or_introl eq_refl)). rewrite E in H. congruence.
      * rewrite IH. split.
        -- intros H k [<- | Hk]; [now rewrite E | now apply H].
        -- intros H k Hk. apply H. now right.
    + rewrite IH. split.
      * intros H k [<- | Hk]; [now rewrite E | now apply H].
      * intros H k Hk. apply H. now right.
Qed.

Lemma pickPreferred_usable (locators : list (string * string))
  (keys : list string) (key : string) :
  In key keys ->
  PlaceStockOrder.usable locators key = true ->
  exists locator, PlaceStockOrder.pickPreferred locators keys = Some locator.
Proof.
  intros Hin Hu.
  destruct (PlaceStockOrder.pickPreferred locators keys) as [locator |] eqn:E;
    [now exists locator |].
  rewrite pickPreferred_none in E. rewrite (E key Hin) in Hu. discriminate.
Qed.

(** X11. The locator [pickBestLocator] returns is always one of the
    element's own candidates: its strategy and selector are an entry of
    [element.locators]. *)
Theorem picked_locator_is_own_candidate (element : ElementWithLocators.t)
  (locator : PlaceStockOrder.Locator) :
  PlaceStockOrder.pickBestLocator element = Return locator ->
  In (PlaceStockOrder.strategy locator, PlaceStockOrder.selector locator)
     (ElementWithLocators.locators element).
Proof.
  unfold PlaceStockOrder.pickBestLocator.
  destruct (PlaceStockOrder.pickPreferred
              (ElementWithLocators.locators element)
              PlaceStockOrder.preferredOrder) as [picked |] eqn:E.
  - intros H. injection H as <-.
    apply pickPreferred_first in E.
    destruct E as [_ [_ [_ [_ [Hp _]]]]]. now apply property_In.
  - destruct (ElementWithLocators.locators element) as [| entry rest];
      [discriminate |].
    intros H. injection H as <-. simpl. left. now destruct entry.
Qed.

Lemma picked_locator_is_own_candidate_witness :
  In ("id", "com.app:id/submitBtn")
     (ElementWithLocators.locators Sample.submitButton).
Proof.
  apply (picked_locator_is_own_candidate Sample.submitButton
           (PlaceStockOrder.mkLocator "id" "com.app:id/submitBtn")).
  reflexivity.
Defined.

(** X12. [pickBestLocator] throws exactly when the element has no candidate
    at all, and then with the message that no usable locator was
    generated; an element with any candidate gets a locator. *)
Theorem pickBestLocator_throws_iff_no_candidate
  (element : ElementWithLocators.t) :
  (ElementWithLocators.locators element = [] <->
   PlaceStockOrder.pickBestLocator element =
     Throw (Js.newError "No usable locators generated for target element"))
  /\
  (ElementWithLocators.locators element <> [] <->
   exists locator, PlaceStockOrder.pickBestLocator element = Return locator).
Proof.
  unfold PlaceStockOrder.pickBestLocator.
  destruct (ElementWithLocators.locators element) as [| entry rest] eqn:E.
  - simpl. split; split; try reflexivity.
    + intros H. now elim H.
    + intros [locator H]. discriminate.
  - destruct (PlaceStockOrder.pickPreferred (entry :: rest)
                PlaceStockOrder.preferredOrder) as [picked |].
    + split; split; try discriminate.
      intros _. now exists picked.
    + split; split; try discriminate.
      intros _. now eexists.
Qed.

(** X13. The preferred order is respected: a usable [id] is always
    picked, and with a non-empty selector; [accessibility id] is picked
    only when [id] is unusable (absent or with an empty selector), [xpath]
    only when both are; and a strategy outside the preferred order is
    picked only when none of the three is usable, in which case it is the
    element's first candidate. *)
Theorem pickBestLocator_respects_preference
  (element : ElementWithLocators.t) (locator : PlaceStockOrder.Locator) :
  PlaceStockOrder.pickBestLocator element = Return locator ->
  (PlaceStockOrder.usable (ElementWithLocators.locators element) "id" = true
   -> PlaceStockOrder.strategy locator = "id" /\
      PlaceStockOrder.selector locator <> "") /\
  (PlaceStockOrder.strategy locator = "accessibility id" ->
   PlaceStockOrder.usable (ElementWithLocators.locators element) "id" =
     false) /\
  (PlaceStockOrder.strategy locator = "xpath" ->
   PlaceStockOrder.usable (ElementWithLocators.locators element) "id" =
     false /\
   PlaceStockOrder.usable (ElementWithLocators.locators element)
     "accessibility id" = false) /\
  (~ In (PlaceStockOrder.strategy locator) PlaceStockOrder.preferredOrder ->
   (forall key,
      In key PlaceStockOrder.preferredOrder ->
      PlaceStockOrder.usable (ElementWithLocators.locators element) key =
        false) /\
   exists rest,
     ElementWithLocators.locators element =
     (PlaceStockOrder.strategy locator, PlaceStockOrder.selector locator)
     :: rest).
Proof.
  unfold PlaceStockOrder.pickBestLocator.
  destruct (PlaceStockOrder.pickPreferred
              (ElementWithLocators.locators element)
              PlaceStockOrder.preferredOrder) as [picked |] eqn:E.
  - intros H. injection H as <-.
    pose proof (pickPreferred_first _ _ _ E)
      as [before [after [Hsplit [Hbefore [Hprop Hsel]]]]].
    unfold PlaceStockOrder.preferredOrder in Hsplit.
    assert (Hlast : ~ In (PlaceStockOrder.strategy picked)
                        PlaceStockOrder.preferredOrder -> False).
    { intros Hout. apply Hout. unfold PlaceStockOrder.preferredOrder.
      rewrite Hsplit. apply in_or_app. right. now left. }
    destruct before as [| b0 before]; simpl in Hsplit.
    { injection Hsplit as Hs _. rewrite <- Hs.
      repeat split; try discriminate; try assumption.
      - intros Hout. exfalso. apply Hlast. now rewrite <- Hs.
      - exfalso. apply Hlast. now rewrite <- Hs. }
    injection Hsplit as Hb0 Hsplit. subst b0.
    pose proof (Hbefore "id"%string (or_introl eq_refl)) as Hid.
    destruct before as [| b1 before]; simpl in Hsplit.
    { injection Hsplit as Hs _. rewrite <- Hs.
      repeat split; try discriminate; try assumption; try congruence.
      - intros Hout. exfalso. apply Hlast. now rewrite <- Hs.
      - exfalso. apply Hlast. now rewrite <- Hs. }
    injection Hsplit as Hb1 Hsplit. subst b1.
    pose proof (Hbefore "accessibility id"%string
                  (or_intror (or_introl eq_refl))) as Hacc.
    destruct before as [| b2 before]; simpl in Hsplit.
    { injection Hsplit as Hs _. rewrite <- Hs.
      repeat split; try discriminate; try assumption; try congruence.
      - intros Hout. exfalso. apply Hlast. now rewrite <- Hs.
      - exfalso. apply Hlast. now rewrite <- Hs. }
    injection Hsplit as _ Hsplit. destruct before; discriminate.
  - destruct (ElementWithLocators.locators element) as [| entry rest] eqn:El;
      [discriminate |].
    intros H. injection H as <-. simpl.
    rewrite pickPreferred_none in E.
    assert (Hid : PlaceStockOrder.usable (entry :: rest) "id" = false).
    { apply E. now left. }
    assert (Hacc : PlaceStockOrder.usable (entry :: rest) "accessibility id"
                   = false).
    { apply E. right. now left. }
    repeat split; try assumption; try congruence.
    exists rest. now destruct entry.
Qed.

Lemma pickBestLocator_respects_preference_witness :
  PlaceStockOrder.strategy
    (PlaceStockOrder.mkLocator "id" "com.app:id/submitBtn") = "id" /\
  PlaceStockOrder.selector
    (PlaceStockOrder.mkLocator "id" "com.app:id/submitBtn") <> "".
Proof.
  apply (proj1 (pickBestLocator_respects_preference Sample.submitButton
                  (PlaceStockOrder.mkLocator "id" "com.app:id/submitBtn")
                  eq_refl)).
  reflexivity.
Defined.

Section OrderHelpers.

Variable toLowerCase : string -> string.
Variable generateAllElementLocators :
  string -> bool -> string -> Completion (list ElementWithLocators.t).

Lemma snapshotElements_returns (driver : PlaceStockOrder.Driver)
  (log log' : list Event) (elements : list ElementWithLocators.t) :
  PlaceStockOrder.snapshotElements toLowerCase generateAllElementLocators
    driver log = (Return elements, log') ->
  log' = log ++ [GetPageSource; AutomationName].
Proof.
  unfold PlaceStockOrder.snapshotElements; unfold_M.
  destruct (PlaceStockOrder.getPageSource driver log)
    as [pageSource | e]; [| discriminate].
  rewrite <- app_assoc. simpl.
  destruct (PlaceStockOrder.automationName driver (log ++ [GetPageSource]));
    intros H; now inversion H.
Qed.

(** [findElementByPredicate] once the snapshot is there and an element
    satisfies the predicate. *)
Lemma findElementByPredicate_found (driver : PlaceStockOrder.Driver)
  (predicate : ElementWithLocators.t -> bool) (description : string)
  (log log1 : list Event) (elements : list ElementWithLocators.t)
  (found : ElementWithLocators.t) :
  PlaceStockOrder.snapshotElements toLowerCase generateAllElementLocators
    driver log = (Return elements, log1) ->
  List.find predicate elements = Some found ->
  PlaceStockOrder.findElementByPredicate toLowerCase
    generateAllElementLocators driver predicate description log =
  match PlaceStockOrder.pickBestLocator found with
  | Throw e => (Throw e, log1)
  | Return locator =>
      match PlaceStockOrder.findElement driver log1
              (PlaceStockOrder.strategy locator)
              (PlaceStockOrder.selector locator) with
      | Throw e =>
          (Throw e,
           log1 ++ [FindElement (PlaceStockOrder.strategy locator)
                                (PlaceStockOrder.selector locator) false])
      | Return handle =>
          (match PlaceStockOrder.getElementId handle with
           | Return id =>
               Return (PlaceStockOrder.mkLocated id
                         (PlaceStockOrder.strategy locator)
                         (PlaceStockOrder.selector locator))
           | Throw e => Throw e
           end,
           log1 ++ [FindElement (PlaceStockOrder.strategy locator)
                                (PlaceStockOrder.selector locator) true])
      end
  end.
Proof.
  intros Hsnap Hfind. unfold PlaceStockOrder.findElementByPredicate.
  unfold bind at 1. rewrite Hsnap, Hfind.
  unfold PlaceStockOrder.callFindElement; unfold_M.
  destruct (PlaceStockOrder.pickBestLocator found) as [locator | e];
    [| reflexivity].
  destruct (PlaceStockOrder.findElement driver log1
              (PlaceStockOrder.strategy locator)
              (PlaceStockOrder.selector locator)) as [handle | e];
    [| reflexivity].
  destruct (PlaceStockOrder.getElementId handle); reflexivity.
Qed.

(** X14. When no element of the snapshot satisfies the predicate,
    [findElementByPredicate] throws the error that names what it was
    looking for, and no element is resolved: the session has only been
    asked for the page source and the driver name. *)
Theorem no_match_resolves_nothing (driver : PlaceStockOrder.Driver)
  (predicate : ElementWithLocators.t -> bool) (description : string)
  (log log1 : list Event) (elements : list ElementWithLocators.t) :
  PlaceStockOrder.snapshotElements toLowerCase generateAllElementLocators
    driver log = (Return elements, log1) ->
  (forall element, In element elements -> predicate element = false) ->
  PlaceStockOrder.findElementByPredicate toLowerCase
    generateAllElementLocators driver predicate description log =
  (Throw (Js.newError
            ("Unable to locate " ++ description ++
             " using generated locators")%string),
   log ++ [GetPageSource; AutomationName]).
Proof.
  intros Hsnap Hnone. unfold PlaceStockOrder.findElementByPredicate.
  unfold bind at 1. rewrite Hsnap, (find_nothing _ _ Hnone).
  apply snapshotElements_returns in Hsnap. now subst log1.
Qed.

(** X15. When [findElementByPredicate] returns, it has located the first
    element of the snapshot, in snapshot order, that satisfies the
    predicate; the strategy and selector it reports are a candidate of
    that element, the one [pickBestLocator] picks; exactly one resolution
    was made, with that strategy and selector; and the element id is the
    one [getElementId] reads from the handle the resolution returned. *)
Theorem located_is_first_match (driver : PlaceStockOrder.Driver)
  (predicate : ElementWithLocators.t -> bool) (description : string)
  (log log' : list Event) (located : PlaceStockOrder.Located) :
  PlaceStockOrder.findElementByPredicate toLowerCase
    generateAllElementLocators driver predicate description log =
    (Return located, log') ->
  exists before found after handle,
    PlaceStockOrder.snapshotElements toLowerCase generateAllElementLocators
      driver log =
      (Return (before ++ found :: after),
       log ++ [GetPageSource; AutomationName]) /\
    (forall element, In element before -> predicate element = false) /\
    predicate found = true /\
    PlaceStockOrder.pickBestLocator found =
      Return (PlaceStockOrder.mkLocator
                (PlaceStockOrder.locatedStrategy located)
                (PlaceStockOrder.locatedSelector located)) /\
    In (PlaceStockOrder.locatedStrategy located,
        PlaceStockOrder.locatedSelector located)
       (ElementWithLocators.locators found) /\
    PlaceStockOrder.findElement driver
      (log ++ [GetPageSource; AutomationName])
      (PlaceStockOrder.locatedStrategy located)
      (PlaceStockOrder.locatedSelector located) = Return handle /\
    PlaceStockOrder.getElementId handle =
      Return (PlaceStockOrder.elementId located) /\
    log' = log ++ [GetPageSource; AutomationName;
                   FindElement (PlaceStockOrder.locatedStrategy located)
                               (PlaceStockOrder.locatedSelector located)
                               true].
Proof.
  intros Hrun.
  destruct (PlaceStockOrder.snapshotElements toLowerCase
              generateAllElementLocators driver log)
    as [[elements | e] log1] eqn:Hsnap.
  - destruct (List.find predicate elements) as [found |] eqn:Hfind.
    + rewrite (findElementByPredicate_found driver predicate description
                 log log1 elements found Hsnap Hfind) in Hrun.
      pose proof (snapshotElements_returns _ _ _ _ Hsnap) as ->.
      destruct (find_first _ _ _ Hfind)
        as [before [after [-> [Hbefore Hfound]]]].
      destruct (PlaceStockOrder.pickBestLocator found)
        as [locator | e] eqn:Hpick; [| discriminate].
      destruct (PlaceStockOrder.findElement driver
                  (log ++ [GetPageSource; AutomationName])
                  (PlaceStockOrder.strategy locator)
                  (PlaceStockOrder.selector locator))
        as [handle | e] eqn:Hres; [| discriminate].
      destruct (PlaceStockOrder.getElementId handle) as [id | e] eqn:Hid;
        [| discriminate].
      injection Hrun as <- <-. simpl.
      exists before, found, after, handle.
      assert (Hin : In (PlaceStockOrder.strategy locator,
                        PlaceStockOrder.selector locator)
                       (ElementWithLocators.locators found)).
      { clear - Hpick. revert Hpick.
        unfold PlaceStockOrder.pickBestLocator.
        destruct (PlaceStockOrder.pickPreferred
                    (ElementWithLocators.locators found)
                    PlaceStockOrder.preferredOrder) as [picked |] eqn:E.
        - intros H. injection H as <-. apply pickPreferred_first in E.
          destruct E as [_ [_ [_ [_ [Hp _]]]]]. now apply property_In.
        - destruct (ElementWithLocators.locators found) as [| entry rest];
            [discriminate |].
          intros H. injection H as <-. simpl. left. now destruct entry. }
      rewrite <- app_assoc. simpl.
      repeat split; try assumption. now destruct locator.
    + unfold PlaceStockOrder.findElementByPredicate in Hrun.
      unfold bind at 1 in Hrun. rewrite Hsnap, Hfind in Hrun. discriminate.
  - unfold PlaceStockOrder.findElementByPredicate in Hrun.
    unfold bind at 1 in Hrun. rewrite Hsnap in Hrun. discriminate.
Qed.


(** X17. Strings that are equal up to letter case include each other up to
    letter case, in both directions. *)
Theorem equalsIgnoreCase_implies_textIncludes (a b : string) :
  PlaceStockOrder.equalsIgnoreCase toLowerCase a b = true ->
  PlaceStockOrder.textIncludes toLowerCase a b = true /\
  PlaceStockOrder.textIncludes toLowerCase b a = true.
Proof.
  unfold PlaceStockOrder.equalsIgnoreCase, PlaceStockOrder.textIncludes.
  intros H. apply String.eqb_eq in H. rewrite H.
  split; apply includes_refl.
Qed.

End OrderHelpers.

Lemma no_match_resolves_nothing_witness :
  PlaceStockOrder.findElementByPredicate Js.asciiToLowerCase
    Sample.generateAllElementLocators Scenario.orderDriver Scenario.isConfirm
    "Confirm CTA" [] =
  (Throw (Js.newError
            "Unable to locate Confirm CTA using generated locators"),
   [GetPageSource; AutomationName]).
Proof.
  apply (no_match_resolves_nothing Js.asciiToLowerCase
           Sample.generateAllElementLocators Scenario.orderDriver
           Scenario.isConfirm "Confirm CTA" []
           [GetPageSource; AutomationName]
           [Sample.submitButton; Sample.cancelButton]).
  - reflexivity.
  - intros element [<- | [<- | []]]; reflexivity.
Defined.

Lemma located_is_first_match_witness :
  exists before found after handle,
    PlaceStockOrder.snapshotElements Js.asciiToLowerCase
      Sample.generateAllElementLocators Scenario.orderDriver [] =
      (Return (before ++ found :: after),
       [] ++ [GetPageSource; AutomationName]) /\
    (forall element,
       In element before -> Scenario.isCancel element = false) /\
    Scenario.isCancel found = true /\
    PlaceStockOrder.pickBestLocator found =
      Return (PlaceStockOrder.mkLocator "id" "com.app:id/cancelBtn") /\
    In ("id", "com.app:id/cancelBtn")
       (ElementWithLocators.locators found) /\
    PlaceStockOrder.findElement Scenario.orderDriver
      ([] ++ [GetPageSource; AutomationName])
      "id" "com.app:id/cancelBtn" = Return handle /\
    PlaceStockOrder.getElementId handle = Return "00000000-0000-0001" /\
    [GetPageSource; AutomationName;
     FindElement "id" "com.app:id/cancelBtn" true] =
    [] ++ [GetPageSource; AutomationName;
           FindElement "id" "com.app:id/cancelBtn" true].
Proof.
  apply (located_is_first_match Js.asciiToLowerCase
           Sample.generateAllElementLocators Scenario.orderDriver
           Scenario.isCancel "Cancel button" []
           [GetPageSource; AutomationName;
            FindElement "id" "com.app:id/cancelBtn" true]
           (PlaceStockOrder.mkLocated "00000000-0000-0001" "id"
              "com.app:id/cancelBtn")).
  reflexivity.
Defined.


Lemma equalsIgnoreCase_implies_textIncludes_witness :
  PlaceStockOrder.textIncludes Js.asciiToLowerCase "BUY" "Buy" = true /\
  PlaceStockOrder.textIncludes Js.asciiToLowerCase "Buy" "BUY" = true.
Proof.
  apply (equalsIgnoreCase_implies_textIncludes Js.asciiToLowerCase
           "BUY" "Buy").
  reflexivity.
Defined.

(** * The redaction of logged arguments *)

Section RedactionProperties.

Variable Number : Type.
Variable toLowerCase : string -> string.

Local Abbreviation Json := (RegisterTools.Json Number).
Local Abbreviation redacts := (RegisterTools.redacts toLowerCase).
Local Abbreviation redactValue := (RegisterTools.redactValue Number toLowerCase).
Local Abbreviation redactItems := (RegisterTools.redactItems Number toLowerCase).
Local Abbreviation redactMembers := (RegisterTools.redactMembers Number toLowerCase).
Local Abbreviation redactArgs := (RegisterTools.redactArgs Number toLowerCase).
Local Abbreviation Redacted := (RegisterTools.Redacted Number toLowerCase).

(** Induction on a value with the hypothesis for every item and member. *)
Lemma Json_induction (P : Json -> Prop) :
  P RegisterTools.JNull ->
  (forall b, P (RegisterTools.JBool b)) ->
  (forall n, P (RegisterTools.JNumber Number n)) ->
  (forall s, P (RegisterTools.JString s)) ->
  (forall items, Forall P items -> P (RegisterTools.JArray items)) ->
  (forall members,
     Forall (fun member => P (snd member)) members ->
     P (RegisterTools.JObject members)) ->
  forall value, P value.
Proof.
  intros Hnull Hbool Hnumber Hstring Harray Hobject.
  fix IH 1. intros [| b | n | s | items | members].
  - exact Hnull.
  - apply Hbool.
  - apply Hnumber.
  - apply Hstring.
  - apply Harray. induction items as [| item rest IHrest]; constructor.
    + apply IH.
    + exact IHrest.
  - apply Hobject. induction members as [| member rest IHrest]; constructor.
    + apply IH.
    + exact IHrest.
Qed.

(** [redactValue] is the replacer followed by the descent into what the
    replacer returned. *)
Lemma redactValue_replacer (key : string) (value : Json) :
  redactValue key value =
  RegisterTools.descend Number toLowerCase
    (RegisterTools.replacer Number toLowerCase key value).
Proof.
  unfold RegisterTools.replacer.
  destruct value as [| b | n | s | items | members]; simpl;
    destruct (redacts key); try reflexivity;
    try (destruct (RegisterTools.tooLong s); reflexivity).
Qed.

Lemma redactValue_sensitive (key : string) (value : Json) :
  redacts key = true ->
  redactValue key value = RegisterTools.JString "[REDACTED]".
Proof.
  intros H. rewrite redactValue_replacer. unfold RegisterTools.replacer.
  now rewrite H.
Qed.

Lemma redactValue_scalar (key : string) (value : Json) :
  redacts key = false ->
  RegisterTools.isPlainScalar Number value = true ->
  redactValue key value = value.
Proof.
  intros Hkey Hscalar. rewrite redactValue_replacer.
  unfold RegisterTools.replacer. rewrite Hkey.
  destruct value as [| b | n | s | items | members]; simpl in *;
    try reflexivity; try discriminate.
  apply negb_true_iff in Hscalar. now rewrite Hscalar.
Qed.

Lemma redacted_marker_loggable :
  RegisterTools.LoggableString "[REDACTED]".
Proof. left. simpl. lia. Qed.

Lemma redactValue_Redacted (value : Json) :
  forall key, Redacted (redactValue key value).
Proof.
  induction value as [| b | n | s | items IH | members IH]
    using Json_induction; intros key; rewrite redactValue_replacer;
    unfold RegisterTools.replacer;
    (destruct (redacts key) eqn:Hkey;
     [simpl; constructor; apply redacted_marker_loggable |]); simpl.
  - constructor.
  - constructor.
  - constructor.
  - destruct (RegisterTools.tooLong s) eqn:Hlong; simpl; constructor.
    + right. exists (String.length s). split; [| reflexivity].
      unfold RegisterTools.tooLong in Hlong.
      apply andb_true_iff in Hlong. destruct Hlong as [_ Hlong].
      now apply Nat.ltb_lt in Hlong.
    + left. unfold RegisterTools.tooLong in Hlong.
      apply andb_false_iff in Hlong. destruct Hlong as [Hempty | Hshort].
      * apply truthy_empty in Hempty. subst s. simpl. lia.
      * apply Nat.ltb_ge in Hshort. exact Hshort.
  - constructor. generalize 0 as index.
    induction IH as [| item rest Hitem Hrest IHrest]; intros index; simpl;
      constructor; [apply Hitem | apply IHrest].
  - constructor. unfold RegisterTools.redactMembers.
    induction IH as [| member rest Hmember Hrest IHrest]; simpl;
      constructor; [| exact IHrest].
    simpl. split; [| apply Hmember].
    intros Hsensitive. now apply redactValue_sensitive.
Qed.



End RedactionProperties.

(** The arguments of a tool with a password beside them. *)
Example redactArgs_on_sample_arguments :
  RegisterTools.redactArgs Z Js.asciiToLowerCase
    (RegisterTools.JObject
       [("locatorFilePath", RegisterTools.JString "locators.json");
        ("retries", RegisterTools.JNumber Z 3%Z);
        ("Password", RegisterTools.JString "hunter2");
        ("capabilities",
         RegisterTools.JObject
           [("platformName", RegisterTools.JString "Android");
            ("accessToken", RegisterTools.JString "abc");
            ("apiKey", RegisterTools.JArray [RegisterTools.JString "k1"])])])
  =
  RegisterTools.JObject
    [("locatorFilePath", RegisterTools.JString "locators.json");
     ("retries", RegisterTools.JNumber Z 3%Z);
     ("Password", RegisterTools.JString "[REDACTED]");
     ("capabilities",
      RegisterTools.JObject
        [("platformName", RegisterTools.JString "Android");
         ("accessToken", RegisterTools.JString "[REDACTED]");
         ("apiKey", RegisterTools.JString "[REDACTED]")])].
Proof. reflexivity. Qed.

(** * What the search does not read *)

(** X20. The alternates searched for an entry depend on its strategy, its
    selector and its three labels only: [AutoHeal], [timestamp] and
    [pageName] are never read, so an entry gets the same alternates
    whatever its [AutoHeal] flag says. *)
Theorem search_ignores_autoheal (toLowerCase : string -> string)
  (userLocator other : UserLocatorEntry.t)
  (allCurrentPageElements : list ElementWithLocators.t) :
  UserLocatorEntry.LocatorStrategy other =
    UserLocatorEntry.LocatorStrategy userLocator ->
  UserLocatorEntry.Locators other = UserLocatorEntry.Locators userLocator ->
  UserLocatorEntry.fieldName other = UserLocatorEntry.fieldName userLocator ->
  UserLocatorEntry.remarks other = UserLocatorEntry.remarks userLocator ->
  UserLocatorEntry.pageElementName other =
    UserLocatorEntry.pageElementName userLocator ->
  findAlternateLocators toLowerCase other allCurrentPageElements =
  findAlternateLocators toLowerCase userLocator allCurrentPageElements.
Proof.
  destruct userLocator, other. simpl. intros -> -> -> -> ->. reflexivity.
Qed.

Lemma search_ignores_autoheal_witness :
  findAlternateLocators Js.asciiToLowerCase
    (UserLocatorEntry.mk "Payment" "submitButton" "id"
       "com.app:id/missingBtn" "Submit" "2025-09-14" "" "false")
    [Sample.submitButton; Sample.cancelButton] =
  findAlternateLocators Js.asciiToLowerCase Sample.submitEntry
    [Sample.submitButton; Sample.cancelButton].
Proof.
  apply (search_ignores_autoheal Js.asciiToLowerCase Sample.submitEntry
           (UserLocatorEntry.mk "Payment" "submitButton" "id"
              "com.app:id/missingBtn" "Submit" "2025-09-14" "" "false")
           [Sample.submitButton; Sample.cancelButton]);
    reflexivity.
Defined.
